(** * The blog content store and its credential gate

  A shallow embedding of [js/blog-storage.js] (class [BlogStorage]) and
  [js/blog-auth.js] (class [BlogAuth]).

  Conventions of the embedding.
  - A JavaScript string is a [string]: a sequence of code units, each an
    [ascii], read as the code points U+0000..U+00FF (Latin-1).
  - A JavaScript number is a [Z]: the numbers of this code are millisecond
    time stamps, minute counts and lengths.
  - [Date.now()] is an explicit argument of every operation that reads the
    clock.
  - Browser storage maps a key to a text.  The texts of this code are read
    back through [JSON.parse], so a text is kept as what [JSON.parse] makes
    of it (see [JS.text]). *)

From Stdlib Require Import ZArith String Ascii List Lia Bool DecimalString.
From Stdlib Require Import Sorted Permutation.
From stdpp Require Import base option list gmap strings fin_maps.

Local Open Scope string_scope.
Local Open Scope Z_scope.

Set Warnings "-register-all".

(** ** Strings: the built-ins of [String.prototype] the code calls *)

Module JSString.

Definition chars (s : string) : list ascii := list_ascii_of_string s.
Definition str (l : list ascii) : string := string_of_list_ascii l.

Definition code (c : ascii) : N := N_of_ascii c.

Definition in_range (lo hi : N) (c : ascii) : bool :=
  ((lo <=? code c) && (code c <=? hi))%N.

(** White space and line terminators below U+0100: TAB, LF, VT, FF, CR,
    SPACE and NO-BREAK SPACE.  This is the class [\s] and the set
    [trim] removes. *)
Definition is_space (c : ascii) : bool :=
  in_range 9 13 c || (code c =? 32)%N || (code c =? 160)%N.

(** The class [\w]: [A-Za-z0-9_]. *)
Definition is_word (c : ascii) : bool :=
  in_range 65 90 c || in_range 97 122 c || in_range 48 57 c
  || (code c =? 95)%N.

Definition is_hyphen (c : ascii) : bool := (code c =? 45)%N.

Definition hyphen : ascii := "-"%char.

(** [toLowerCase] on one code unit: A-Z, and the Latin-1 capitals
    U+00C0..U+00DE except the multiplication sign U+00D7, move up by 32. *)
Definition lower_char (c : ascii) : ascii :=
  if in_range 65 90 c
     || (in_range 192 222 c && negb (code c =? 215)%N)
  then ascii_of_N (code c + 32)
  else c.

Definition toLowerCase (s : list ascii) : list ascii := map lower_char s.

Fixpoint trimStart (s : list ascii) : list ascii :=
  match s with
  | c :: s' => if is_space c then trimStart s' else s
  | [] => []
  end.

Definition trimEnd (s : list ascii) : list ascii := rev (trimStart (rev s)).

Definition trim (s : list ascii) : list ascii := trimEnd (trimStart s).

(** [s.substring(0, n)] *)
Definition substring0 (n : nat) (s : list ascii) : list ascii := firstn n s.

(** [s.replace(/[^...]/g, '')] for a negated class: the characters of the
    class [keep] stay. *)
Definition remove_except (keep : ascii -> bool) (s : list ascii) : list ascii :=
  List.filter keep s.

(** [s.replace(/C+/g, r)] for a character class [C]: scanning from the left,
    every maximal run of characters of the class is replaced by [r].
    [replace_runs] is the scanner outside a run, [in_run] the scanner that
    has matched at least one character of the run. *)
Fixpoint replace_runs (cls : ascii -> bool) (r : list ascii) (s : list ascii)
  : list ascii :=
  match s with
  | [] => []
  | c :: s' =>
      if cls c then in_run cls r s' else c :: replace_runs cls r s'
  end
with in_run (cls : ascii -> bool) (r : list ascii) (s : list ascii)
  : list ascii :=
  match s with
  | [] => r
  | c :: s' =>
      if cls c then in_run cls r s' else r ++ c :: replace_runs cls r s'
  end.

End JSString.

(** ** Values, exceptions and storage texts *)

Module JS.

(** The values [JSON.parse] returns.  An object is a finite map from its
    own property names to their values. *)
Inductive json : Type :=
| JNull
| JBool (b : bool)
| JNum (n : Z)
| JStr (s : string)
| JArr (l : list json)
| JObj (o : gmap string json).

(** A value of the running program: [None] is [undefined]. *)
Abbreviation value := (option json).

(** An object built by the program (an object literal, the result of a
    spread): a property can hold [undefined]. *)
Abbreviation object := (gmap string (option json)).

Inductive exn : Type :=
| TypeError
| RangeError
| SyntaxError
| Error (message : string).

Inductive result (A : Type) : Type :=
| Ok (a : A)
| Throw (e : exn).
Arguments Ok {A} a.
Arguments Throw {A} e.

Definition bind {A B : Type} (m : result A) (k : A -> result B) : result B :=
  match m with
  | Ok a => k a
  | Throw e => Throw e
  end.

(** [try { m } catch (error) { h error }] *)
Definition try_catch {A : Type} (m : result A) (h : exn -> result A) : result A :=
  match m with
  | Ok a => Ok a
  | Throw e => h e
  end.

(** A text held by browser storage or handed to [JSON.parse], for values
    of the type [A].  [TextOf v] is a text on which [JSON.parse] returns
    [v]; every text [JSON.stringify] writes for [v] is one.  [BadText] is a
    text on which [JSON.parse] throws, other than the empty string. *)
Inductive text (A : Type) : Type :=
| EmptyText
| BadText
| TextOf (v : A).
Arguments EmptyText {A}.
Arguments BadText {A}.
Arguments TextOf {A} v.

Definition JSON_parse {A : Type} (t : text A) : result A :=
  match t with
  | TextOf v => Ok v
  | EmptyText | BadText => Throw SyntaxError
  end.

(** [JSON.stringify] of a value that holds no [undefined]. *)
Definition JSON_stringify {A : Type} (v : A) : text A := TextOf v.

(** What [JSON.stringify] keeps of an object of the program: a property
    holding [undefined] is left out. *)
Definition serializable (o : object) : gmap string json := omap id o.

(** Truthiness of a text returned by [getItem]: [null] and the empty string
    are falsy. *)
Definition text_truthy {A : Type} (t : option (text A)) : bool :=
  match t with
  | None | Some EmptyText => false
  | Some _ => true
  end.

(** Truthiness of a value. *)
Definition truthy (v : value) : bool :=
  match v with
  | None | Some JNull => false
  | Some (JBool b) => b
  | Some (JNum n) => negb (n =? 0)
  | Some (JStr s) => negb (String.eqb s "")
  | Some (JArr _) | Some (JObj _) => true
  end.

(** [a === b] between a value read from a parsed text and a value of the
    caller: two arrays or two objects are never the same reference. *)
Definition strict_eq (a b : value) : bool :=
  match a, b with
  | None, None => true
  | Some JNull, Some JNull => true
  | Some (JBool x), Some (JBool y) => Bool.eqb x y
  | Some (JNum x), Some (JNum y) => x =? y
  | Some (JStr x), Some (JStr y) => String.eqb x y
  | _, _ => false
  end.

Definition index_key (i : nat) : string :=
  NilZero.string_of_uint (Nat.to_uint i).

Definition indexed {A : Type} (l : list A) : list (string * A) :=
  imap (fun i x => (index_key i, x)) l.

Definition char_str (c : ascii) : json := JStr (String c EmptyString).

(** The own enumerable properties a spread [{...v}] copies. *)
Definition own_props (v : value) : gmap string json :=
  match v with
  | Some (JObj o) => o
  | Some (JArr l) => list_to_map (indexed l)
  | Some (JStr s) => list_to_map (indexed (char_str <$> JSString.chars s))
  | _ => ∅
  end.

(** [v.k] for the property names this code reads ([id], [slug], [posts],
    [length], ...): none is an array index, and of the inherited
    properties only [length] of a string or an array is among them. *)
Definition get_prop (v : value) (k : string) : result value :=
  match v with
  | None | Some JNull => Throw TypeError
  | Some (JObj o) => Ok (o !! k)
  | Some (JArr l) =>
      Ok (if String.eqb k "length" then Some (JNum (Z.of_nat (length l))) else None)
  | Some (JStr s) =>
      Ok (if String.eqb k "length" then Some (JNum (Z.of_nat (String.length s))) else None)
  | Some (JBool _) | Some (JNum _) => Ok None
  end.

(** [o.k] on an object of the program. *)
Definition get_field (o : object) (k : string) : value := mjoin (o !! k).

(** [v.m(...)] for a method [m] of strings only ([toLowerCase], [replace]):
    the receiver when it is a string, [TypeError] otherwise. *)
Definition as_string (v : value) : result string :=
  match v with
  | Some (JStr s) => Ok s
  | _ => Throw TypeError
  end.

(** [v.m(...)] for a method [m] of arrays only ([findIndex], [filter]). *)
Definition as_array (v : json) : result (list json) :=
  match v with
  | JArr l => Ok l
  | _ => Throw TypeError
  end.

End JS.

(** ** [BlogStorage]: the content store (js/blog-storage.js) *)

Module BlogStorage.
Import JS JSString.

Notation "x <- m ;; k" := (bind m (fun x => k))
  (at level 100, m at next level, right associativity).

(** The entry of [localStorage] under [STORAGE_KEY] = ['blog_posts']:
    [None] when [getItem] returns [null]. *)
Definition storage : Type := option (text json).

(** *** Utility methods *)

Definition slug_char (c : ascii) : bool :=
  is_word c || is_space c || is_hyphen c.

Definition generateSlug (title : string) : string :=
  str (substring0 60
        (replace_runs is_hyphen [hyphen]
          (replace_runs is_space [hyphen]
            (remove_except slug_char
              (trim (toLowerCase (chars title))))))).

(** [generateSlug] called on a value: [title.toLowerCase] exists on strings
    only. *)
Definition generateSlug_of (title : value) : result string :=
  t <- as_string title ;; Ok (generateSlug t).

(** [String(n).padStart(width, '0')] for [0 <= n]. *)
Definition zero_pad (width : nat) (n : Z) : string :=
  let digits := NilZero.string_of_uint (N.to_uint (Z.to_N n)) in
  str (repeat "0"%char (width - String.length digits)) ++ digits.

(** Year, month and day (UTC, proleptic Gregorian) of the day number
    [days] counted from 1970-01-01. *)
Definition civil_from_days (days : Z) : Z * Z * Z :=
  let z := days + 719468 in
  let era := z / 146097 in
  let doe := z - era * 146097 in
  let yoe := (doe - doe / 1460 + doe / 36524 - doe / 146096) / 365 in
  let doy := doe - (365 * yoe + yoe / 4 - yoe / 100) in
  let mp := (5 * doy + 2) / 153 in
  let d := doy - (153 * mp + 2) / 5 + 1 in
  let m := if mp <? 10 then mp + 3 else mp - 9 in
  let y := yoe + era * 400 + (if m <=? 2 then 1 else 0) in
  (y, m, d).

(** [new Date(timestamp).toISOString().split('T')[0]]: a time value beyond
    8.64e15 ms is an invalid date, on which [toISOString] throws; a year
    outside 0..9999 is written with a sign and six digits. *)
Definition isoDate (timestamp : Z) : result string :=
  if Z.abs timestamp <=? 8640000000000000 then
    let '(y, m, d) := civil_from_days (timestamp / 86400000) in
    let year :=
      if (0 <=? y) && (y <=? 9999) then zero_pad 4 y
      else (if y <? 0 then "-" else "+") ++ zero_pad 6 (Z.abs y) in
    Ok (year ++ "-" ++ zero_pad 2 m ++ "-" ++ zero_pad 2 d)
  else Throw RangeError.

Definition generateId (title : value) (timestamp : Z) : result string :=
  slug <- generateSlug_of title ;;
  date <- isoDate timestamp ;;
  Ok (slug ++ "-" ++ date).

Definition is_lt (c : ascii) : bool := (code c =? 60)%N.
Definition is_gt (c : ascii) : bool := (code c =? 62)%N.

(** [content.replace(/<[^>]*>/g, '')]: a [<] starts a match when a [>]
    follows somewhere, and the match ends at the first one. *)
Fixpoint strip_tags (s : list ascii) : list ascii :=
  match s with
  | [] => []
  | c :: s' =>
      if is_lt c && existsb is_gt s' then in_tag s' else c :: strip_tags s'
  end
with in_tag (s : list ascii) : list ascii :=
  match s with
  | [] => []
  | c :: s' => if is_gt c then strip_tags s' else in_tag s'
  end.

(** [s.split(/C+/)]: the pieces between the maximal runs of the class. *)
Fixpoint split_runs (cls : ascii -> bool) (s : list ascii) : list (list ascii) :=
  match s with
  | [] => [[]]
  | c :: s' =>
      if cls c then [] :: after_run cls s'
      else match split_runs cls s' with
           | p :: ps => (c :: p) :: ps
           | [] => [[c]]
           end
  end
with after_run (cls : ascii -> bool) (s : list ascii) : list (list ascii) :=
  match s with
  | [] => [[]]
  | c :: s' =>
      if cls c then after_run cls s'
      else match split_runs cls s' with
           | p :: ps => (c :: p) :: ps
           | [] => [[c]]
           end
  end.

Definition calculateReadTime (content : string) : Z :=
  let text := strip_tags (chars content) in
  let words := Z.of_nat (length (split_runs is_space (trim text))) in
  let minutes := (words + 199) / 200 in
  Z.max 1 minutes.

Definition generateExcerpt (content : string) : string :=
  let text := strip_tags (chars content) in
  let excerpt := firstn 150 (trim text) in
  if (length excerpt <? length (trim text))%nat
  then str excerpt ++ "..."
  else str excerpt.

(** *** Core storage methods *)

(** The quota of the storage is not modelled: [setItem] succeeds. *)
Definition savePosts (posts : json) (st : storage) : storage :=
  Some (JSON_stringify posts).

Definition getAllPosts (st : storage) : result json :=
  try_catch
    (match st with
     | Some posts => if text_truthy st then JSON_parse posts else Ok (JArr [])
     | None => Ok (JArr [])
     end)
    (fun _ => Ok (JArr [])).

(** [l.findIndex(f)]: the first index where [f] holds, [None] for -1. *)
Fixpoint findIndex (f : json -> result bool) (l : list json) : result (option nat) :=
  match l with
  | [] => Ok None
  | x :: l' =>
      b <- f x ;;
      if b then Ok (Some 0%nat)
      else i <- findIndex f l' ;; Ok (S <$> i)
  end.

(** [l.filter(f)] *)
Fixpoint filter_arr (f : json -> result bool) (l : list json) : result (list json) :=
  match l with
  | [] => Ok []
  | x :: l' =>
      b <- f x ;;
      r <- filter_arr f l' ;;
      Ok (if b then x :: r else r)
  end.

(** [a || b] where [b] is not [undefined] *)
Definition or_else (a : value) (b : json) : json :=
  match a with
  | Some v => if truthy a then v else b
  | None => b
  end.

Definition savePost (postData : object) (now : Z) (st : storage)
  : result (storage * object) :=
  try_catch
    (all <- getAllPosts st ;;
     posts <- as_array all ;;
     existingIndex <-
       findIndex (fun p => pid <- get_prop (Some p) "id" ;;
                           Ok (strict_eq pid (get_field postData "id"))) posts ;;
     match existingIndex with
     | Some i =>
         (* { ...posts[existingIndex], ...postData, updatedAt: now } *)
         let post : object :=
           <["updatedAt" := Some (JNum now)]>
             (postData ∪ (Some <$> own_props (posts !! i))) in
         let posts := <[i := JObj (serializable post)]> posts in
         Ok (savePosts (JArr posts) st, post)
     | None =>
         id <- generateId (get_field postData "title") now ;;
         slug <- generateSlug_of (get_field postData "title") ;;
         content <- as_string (Some (or_else (get_field postData "content") (JStr ""))) ;;
         let readTime := calculateReadTime content in
         let excerpt :=
           or_else (get_field postData "excerpt")
                   (JStr (generateExcerpt content)) in
         let post : object :=
           <["excerpt" := Some excerpt]>
             (<["readTime" := Some (JNum readTime)]>
                (<["updatedAt" := Some (JNum now)]>
                   (<["createdAt" := Some (JNum now)]>
                      (<["slug" := Some (JStr slug)]>
                         (<["id" := Some (JStr id)]> postData))))) in
         let posts := (posts ++ [JObj (serializable post)])%list in
         Ok (savePosts (JArr posts) st, post)
     end)
    (fun error => Throw error).

Definition deletePost (id : value) (st : storage) : storage * bool :=
  match
    (all <- getAllPosts st ;;
     posts <- as_array all ;;
     filteredPosts <-
       filter_arr (fun post => pid <- get_prop (Some post) "id" ;;
                               Ok (negb (strict_eq pid id))) posts ;;
     if (length filteredPosts =? length posts)%nat then Ok (st, false)
     else Ok (savePosts (JArr filteredPosts) st, true))
  with
  | Ok r => r
  | Throw _ => (st, false)
  end.

(** *** Export and import *)

(** [JSON.stringify({ posts }, null, 2)] *)
Definition exportToJSON (st : storage) : result (text json) :=
  posts <- getAllPosts st ;;
  Ok (JSON_stringify (JObj {[ "posts" := posts ]})).

Definition importFromJSON (jsonString : text json) (st : storage)
  : result (storage * value) :=
  try_catch
    (data <- JSON_parse jsonString ;;
     found <- get_prop (Some data) "posts" ;;
     let posts := or_else found (JArr []) in
     let st := savePosts posts st in
     len <- get_prop (Some posts) "length" ;;
     Ok (st, len))
    (fun _ => Throw (Error "Invalid JSON format")).

(** *** Read paths *)

(** [l.find(f)]: the first element on which [f] holds, [undefined] when
    there is none. *)
Fixpoint find_arr (f : json -> result bool) (l : list json) : result value :=
  match l with
  | [] => Ok None
  | x :: l' =>
      b <- f x ;;
      if b then Ok (Some x) else find_arr f l'
  end.

(** [post => post.id === id || post.slug === id] *)
Definition id_or_slug_is (id : value) (post : json) : result bool :=
  pid <- get_prop (Some post) "id" ;;
  if strict_eq pid id then Ok true
  else slug <- get_prop (Some post) "slug" ;; Ok (strict_eq slug id).

Definition getPostById (id : value) (st : storage) : result json :=
  all <- getAllPosts st ;;
  posts <- as_array all ;;
  found <- find_arr (id_or_slug_is id) posts ;;
  Ok (or_else found JNull).

(** The number a post holds under [key], when it holds one. *)
Definition number_at (key : string) (post : json) : option Z :=
  match post with
  | JObj o =>
      match o !! key with
      | Some (JNum n) => Some n
      | _ => None
      end
  | _ => None
  end.

(** One step of a stable sort by decreasing number: [x] goes behind the
    elements that hold a strictly greater number, and in front of the
    others. *)
Fixpoint insert_desc (x : Z * json) (l : list (Z * json)) : list (Z * json) :=
  match l with
  | [] => [x]
  | y :: l' => if fst y >? fst x then y :: insert_desc x l' else x :: l
  end.

(** [l.sort((a, b) => b.key - a.key)].  An array of fewer than two elements
    is returned as it is.  On an array whose elements all hold a number
    under [key] the comparison function is a consistent order and the result
    is the stable sort by decreasing number.  [None] stands for the other
    arrays, on which the subtraction coerces its operands or yields NaN:
    the code returns an array there too, in an order this embedding does
    not describe. *)
Definition sort_desc (key : string) (l : list json) : option (list json) :=
  match l with
  | [] | [_] => Some l
  | _ =>
      match mapM (fun post => k ← number_at key post; Some (k, post)) l with
      | Some keyed => Some (snd <$> foldr insert_desc [] keyed)
      | None => None
      end
  end.

(** [post => post.published === flag] *)
Definition published_is (flag : bool) (post : json) : result bool :=
  p <- get_prop (Some post) "published" ;;
  Ok (strict_eq p (Some (JBool flag))).

Definition getPublishedPosts (st : storage) : result (option (list json)) :=
  all <- getAllPosts st ;;
  allPosts <- as_array all ;;
  published <- filter_arr (published_is true) allPosts ;;
  Ok (sort_desc "createdAt" published).

Definition getDrafts (st : storage) : result (option (list json)) :=
  all <- getAllPosts st ;;
  allPosts <- as_array all ;;
  drafts <- filter_arr (published_is false) allPosts ;;
  Ok (sort_desc "updatedAt" drafts).

Definition getPostsByCategory (category : value) (st : storage)
  : result (option (list json)) :=
  sorted <- getPublishedPosts st ;;
  match sorted with
  | Some published =>
      l <- filter_arr (fun post => c <- get_prop (Some post) "category" ;;
                                   Ok (strict_eq c category)) published ;;
      Ok (Some l)
  | None => Ok None
  end.

(** *** The fallback data file *)

(** What [fetch('data/blog-posts.json')] and [response.json()] give:
    [Unreadable] when the request or the parsing fails or the document is
    [null], [NotOk] for a response that is not [ok], and otherwise the
    [posts] member of the document, which in the data file of this site is
    an array when it is present. *)
Inductive fallback : Type :=
| Unreadable
| NotOk
| Document (posts : option (list json)).

Definition loadFromFallback (fetched : fallback) (st : storage)
  : storage * list json :=
  match fetched with
  | Unreadable | NotOk => (st, [])
  | Document found =>
      let posts := default [] found in
      if (0 <? length posts)%nat
      then (savePosts (JArr posts) st, posts)
      else (st, posts)
  end.

(** *** Settings *)

Definition getDefaultSettings : json :=
  JObj {[ "author" := JStr "Will Jameson";
          "postsPerPage" := JNum 9;
          "categories" := JArr [JStr "Tutorial"; JStr "Engineering";
                                JStr "Technology"];
          "defaultCategory" := JStr "Technology" ]}.

(** [item] is the entry of [localStorage] under [SETTINGS_KEY]. *)
Definition getSettings (item : option (text json)) : json :=
  match item with
  | Some settings =>
      if text_truthy item then
        match JSON_parse settings with
        | Ok v => v
        | Throw _ => getDefaultSettings
        end
      else getDefaultSettings
  | None => getDefaultSettings
  end.

Definition saveSettings (settings : json) : option (text json) :=
  Some (JSON_stringify settings).

(** [confirmed] is the answer to the [confirm] dialog. *)
Definition clearAll (confirmed : bool) (st : storage) : storage * bool :=
  if confirmed then (None, true) else (st, false).

End BlogStorage.

(** ** SHA-256 (FIPS 180-4), the digest [crypto.subtle.digest] computes *)

Module SHA256.

Local Open Scope N_scope.

Definition add32 (a b : N) : N := (a + b) mod 2 ^ 32.

Definition rotr (n x : N) : N :=
  N.lor (N.shiftr x n) (N.shiftl x (32 - n) mod 2 ^ 32).

Definition not32 (x : N) : N := N.lxor x (2 ^ 32 - 1).

Definition Ch (x y z : N) : N := N.lxor (N.land x y) (N.land (not32 x) z).
Definition Maj (x y z : N) : N :=
  N.lxor (N.lxor (N.land x y) (N.land x z)) (N.land y z).
Definition Sigma0 (x : N) : N := N.lxor (N.lxor (rotr 2 x) (rotr 13 x)) (rotr 22 x).
Definition Sigma1 (x : N) : N := N.lxor (N.lxor (rotr 6 x) (rotr 11 x)) (rotr 25 x).
Definition sigma0 (x : N) : N := N.lxor (N.lxor (rotr 7 x) (rotr 18 x)) (N.shiftr x 3).
Definition sigma1 (x : N) : N := N.lxor (N.lxor (rotr 17 x) (rotr 19 x)) (N.shiftr x 10).

(** The first 64 primes. *)
Definition primes : list N :=
  [ 2; 3; 5; 7; 11; 13; 17; 19; 23; 29; 31; 37; 41; 43; 47; 53; 59; 61; 67;
    71; 73; 79; 83; 89; 97; 101; 103; 107; 109; 113; 127; 131; 137; 139; 149;
    151; 157; 163; 167; 173; 179; 181; 191; 193; 197; 199; 211; 223; 227;
    229; 233; 239; 241; 251; 257; 263; 269; 271; 277; 281; 283; 293; 307;
    311 ].

(** The integer cube root of [n < 2 ^ (3 * bits)], found bit by bit. *)
Fixpoint cube_root (bits : nat) (n r : N) : N :=
  match bits with
  | O => r
  | S bits' =>
      let r' := r + 2 ^ N.of_nat bits' in
      cube_root bits' n (if r' * r' * r' <=? n then r' else r)
  end.

(** The round constants: the first 32 bits of the fractional parts of the
    cube roots of the first 64 primes. *)
Definition K : list N :=
  map (fun p => cube_root 36 (p * 2 ^ 96) 0 mod 2 ^ 32) primes.

(** The initial hash value: the first 32 bits of the fractional parts of
    the square roots of the first 8 primes. *)
Definition H0 : list N :=
  map (fun p => N.sqrt (p * 2 ^ 64) mod 2 ^ 32) (firstn 8 primes).

(** The big-endian bytes of [x], [n] of them. *)
Fixpoint be_bytes (n : nat) (x : N) : list N :=
  match n with
  | O => []
  | S n' => (N.shiftr x (8 * N.of_nat n') mod 256) :: be_bytes n' x
  end.

Definition pad (msg : list N) : list N :=
  let len := N.of_nat (length msg) in
  let zeros := (64 - (len + 9) mod 64) mod 64 in
  (msg ++ [128] ++ repeat 0 (N.to_nat zeros) ++ be_bytes 8 (8 * len))%list.

Definition word_of (bs : list N) : N :=
  fold_left (fun acc b => 256 * acc + b) bs 0.

(** Consecutive groups of [n] elements. *)
Fixpoint chunks {A : Type} (fuel n : nat) (l : list A) : list (list A) :=
  match fuel, l with
  | O, _ | _, [] => []
  | S fuel', _ => firstn n l :: chunks fuel' n (skipn n l)
  end.

Definition words_of_block (block : list N) : list N :=
  map word_of (chunks 16 4 block).

(** The message schedule, most recent word first. *)
Fixpoint schedule (n : nat) (w : list N) : list N :=
  match n with
  | O => w
  | S n' =>
      let x :=
        add32 (add32 (sigma1 (nth 1 w 0)) (nth 6 w 0))
              (add32 (sigma0 (nth 14 w 0)) (nth 15 w 0)) in
      schedule n' (x :: w)
  end.

Definition round (s : list N) (kw : N * N) : list N :=
  match s with
  | [a; b; c; d; e; f; g; h] =>
      let T1 := add32 (add32 (add32 h (Sigma1 e)) (add32 (Ch e f g) (fst kw))) (snd kw) in
      let T2 := add32 (Sigma0 a) (Maj a b c) in
      [add32 T1 T2; a; b; c; add32 d T1; e; f; g]
  | _ => s
  end.

Definition compress (h : list N) (block : list N) : list N :=
  let w := rev (schedule 48 (rev (words_of_block block))) in
  let s := fold_left round (combine K w) h in
  map (fun p => add32 (fst p) (snd p)) (combine h s).

Definition digest (msg : list N) : list N :=
  let padded := pad msg in
  let blocks := chunks (length padded) 64 padded in
  flat_map (be_bytes 4) (fold_left compress blocks H0).

End SHA256.

(** ** [BlogAuth]: the credential gate (js/blog-auth.js) *)

Module BlogAuth.
Import JS JSString.

(** 24 hours *)
Definition SESSION_DURATION : Z := 24 * 60 * 60 * 1000.

Record Session : Type := mkSession {
  authenticated : bool;
  timestamp : Z;
  expiresAt : Z
}.

(** The three entries this class uses: [localStorage] under
    [PASSWORD_KEY], and [localStorage] and [sessionStorage] under
    [SESSION_KEY].  The session entries hold texts of session records. *)
Record storage : Type := mkStorage {
  local_password : option string;
  local_session : option (text Session);
  tab_session : option (text Session)
}.

Definition set_local_password (h : option string) (st : storage) : storage :=
  mkStorage h (local_session st) (tab_session st).
Definition set_local_session (s : option (text Session)) (st : storage) : storage :=
  mkStorage (local_password st) s (tab_session st).
Definition set_tab_session (s : option (text Session)) (st : storage) : storage :=
  mkStorage (local_password st) (local_session st) s.

(** *** Password management *)

(** [new TextEncoder().encode(password)]: UTF-8 of code points below
    U+0100. *)
Definition utf8 (c : ascii) : list N :=
  let n := code c in
  if (n <? 128)%N then [n] else [192 + n / 64; 128 + n mod 64]%N.

Definition hex_digit (n : N) : ascii :=
  if (n <? 10)%N then ascii_of_N (48 + n) else ascii_of_N (87 + n).

(** [b.toString(16).padStart(2, '0')] *)
Definition hex_byte (b : N) : list ascii :=
  [hex_digit (b / 16); hex_digit (b mod 16)]%N.

Definition hashPassword (password : string) : string :=
  let data := flat_map utf8 (chars password) in
  let hashArray := SHA256.digest data in
  str (flat_map hex_byte hashArray).

Definition isPasswordSet (st : storage) : bool :=
  match local_password st with
  | Some _ => true
  | None => false
  end.

Definition setPassword (password : string) (st : storage) : storage * bool :=
  if String.eqb password "" || (String.length password <? 6)%nat
  then (st, false)
  else (set_local_password (Some (hashPassword password)) st, true).

Definition verifyPassword (password : string) (st : storage) : bool :=
  match local_password st with
  | None => false
  | Some storedHash =>
      if String.eqb storedHash "" then false
      else String.eqb (hashPassword password) storedHash
  end.

Definition changePassword (currentPassword newPassword : string) (st : storage)
  : storage * bool :=
  if verifyPassword currentPassword st
  then setPassword newPassword st
  else (st, false).

(** *** Session management *)

(** [t1] and [t2] are the two readings of [Date.now()], for [timestamp]
    and for [expiresAt]. *)
Definition createSession (rememberMe : bool) (t1 t2 : Z) (st : storage) : storage :=
  let session :=
    {| authenticated := true;
       timestamp := t1;
       expiresAt := t2 + (if rememberMe then 30 * 24 * 60 * 60 * 1000
                          else SESSION_DURATION) |} in
  if rememberMe
  then set_local_session (Some (JSON_stringify session)) st
  else set_tab_session (Some (JSON_stringify session)) st.

Definition logout (st : storage) : storage :=
  set_local_session None (set_tab_session None st).

(** The text both [isAuthenticated] and [getSession] start from:
    [sessionStorage] first, [localStorage] when that one is falsy. *)
Definition sessionData (st : storage) : option (text Session) :=
  if text_truthy (tab_session st) then tab_session st else local_session st.

Definition isAuthenticated (now : Z) (st : storage) : storage * bool :=
  if negb (text_truthy (sessionData st)) then (st, false)
  else
    match sessionData st with
    | Some data =>
        match JSON_parse data with
        | Ok session =>
            if now >? expiresAt session then (logout st, false)
            else (st, Bool.eqb (authenticated session) true)
        | Throw _ => (st, false)
        end
    | None => (st, false)
    end.

Definition getSession (st : storage) : option Session :=
  if negb (text_truthy (sessionData st)) then None
  else
    match sessionData st with
    | Some data =>
        match JSON_parse data with
        | Ok session => Some session
        | Throw _ => None
        end
    | None => None
    end.

Definition extendSession (now : Z) (st : storage) : storage :=
  match getSession st with
  | Some session =>
      let session :=
        {| authenticated := authenticated session;
           timestamp := timestamp session;
           expiresAt := now + SESSION_DURATION |} in
      if text_truthy (tab_session st)
      then set_tab_session (Some (JSON_stringify session)) st
      else set_local_session (Some (JSON_stringify session)) st
  | None => st
  end.

(** *** Login flow *)

Record LoginResult : Type := mkLoginResult {
  success : bool;
  message : string;
  firstTime : option bool
}.

Definition login (password : string) (rememberMe : bool) (t1 t2 : Z)
    (st : storage) : storage * LoginResult :=
  if negb (isPasswordSet st) then
    let '(st, ok) := setPassword password st in
    if ok then
      (createSession rememberMe t1 t2 st,
       {| success := true;
          message := "Password set successfully! Welcome to your blog admin.";
          firstTime := Some true |})
    else
      (st,
       {| success := false;
          message := "Failed to set password. Please try again.";
          firstTime := None |})
  else
    if verifyPassword password st then
      (createSession rememberMe t1 t2 st,
       {| success := true;
          message := "Login successful!";
          firstTime := Some false |})
    else
      (st,
       {| success := false;
          message := "Incorrect password. Please try again.";
          firstTime := None |}).

(** *** Security utilities *)

Definition getSessionTimeRemaining (now : Z) (st : storage) : Z :=
  match getSession st with
  | None => 0
  | Some session =>
      let remaining := expiresAt session - now in
      Z.max 0 (remaining / (60 * 1000))
  end.

Definition isSessionExpiringSoon (now : Z) (st : storage) : bool :=
  getSessionTimeRemaining now st <=? 5.

(** The listener [setupAutoExtend] registers for the first user activity;
    [t1] and [t2] are the readings of [Date.now()] in
    [isSessionExpiringSoon] and in [extendSession]. *)
Definition extendOnActivity (t1 t2 : Z) (st : storage) : storage :=
  if isSessionExpiringSoon t1 st then extendSession t2 st else st.

(** [confirmed] is the answer to the [confirm] dialog. *)
Definition resetPassword (confirmed : bool) (st : storage) : storage * bool :=
  if confirmed then (logout (set_local_password None st), true)
  else (st, false).

(** *** Redirection to the login page *)

(** The storage of [BlogAuth], the entry of [sessionStorage] under
    ['blog_redirect_after_login'] and [window.location.href]. *)
Record browser : Type := mkBrowser {
  store : storage;
  redirect_after_login : option string;
  location : string
}.

Definition requireAuth (loginUrl : string) (now : Z) (b : browser)
  : browser * bool :=
  let '(st, ok) := isAuthenticated now (store b) in
  if negb ok
  then (mkBrowser st (Some (location b)) loginUrl, false)
  else (mkBrowser st (redirect_after_login b) (location b), true).

Definition getRedirectUrl (b : browser) : browser * option string :=
  (mkBrowser (store b) None (location b), redirect_after_login b).

End BlogAuth.

(** ** [BlogListing]: the listing page (second part of js/blog-storage.js) *)

Module BlogListing.
Import JS JSString BlogStorage.

(** The posts the page ends up with and the store it leaves; [None] when
    [getPublishedPosts] is outside the embedding (see [sort_desc]). *)
Definition loadPosts (fetched : fallback) (st : storage)
  : option (storage * list json) :=
  match getPublishedPosts st with
  | Throw _ => Some (st, [])
  | Ok None => None
  | Ok (Some posts) =>
      if (length posts =? 0)%nat then
        let '(st', fallbackPosts) := loadFromFallback fetched st in
        match filter_arr (published_is true) fallbackPosts with
        | Ok published => Some (st', published)
        | Throw _ => Some (st', [])
        end
      else Some (st, posts)
  end.

Definition filterPosts (posts : list json) (category : string)
  : result (list json) :=
  if String.eqb category "all" then Ok posts
  else filter_arr (fun post => c <- get_prop (Some post) "category" ;;
                               Ok (strict_eq c (Some (JStr category)))) posts.

End BlogListing.

(** ** [BlogPost]: the page of one post (first part of the unnamed file) *)

Module BlogPost.
Import JS JSString BlogStorage.

(** [if (this.post && !this.post.published) this.post = null] *)
Definition hide_unpublished (post : value) : value :=
  if truthy post then
    match get_prop post "published" with
    | Ok published => if truthy published then post else Some JNull
    | Throw _ => Some JNull
    end
  else post.

(** The store [loadPost] leaves and the value of [this.post]. *)
Definition loadPost (postId : string) (fetched : fallback) (st : storage)
  : storage * value :=
  match getPostById (Some (JStr postId)) st with
  | Throw _ => (st, Some JNull)
  | Ok post =>
      if negb (truthy (Some post)) then
        let '(st', fallbackPosts) := loadFromFallback fetched st in
        match find_arr (id_or_slug_is (Some (JStr postId))) fallbackPosts with
        | Ok found => (st', hide_unpublished found)
        | Throw _ => (st', Some JNull)
        end
      else (st, hide_unpublished (Some post))
  end.

End BlogPost.

(** ** [BlogEditor]: the editor page (second part of js/animations.js) *)

Module BlogEditor.
Import JS JSString BlogStorage.

(** The values of the form elements the editor reads. *)
Record Form : Type := mkForm {
  titleInput : string;
  editorContent : string;
  categorySelect : string;
  featuredImageInput : string;
  excerptInput : string;
  publishedCheckbox : bool
}.

(** [currentPost] is [JNull] for [null]. *)
Record Editor : Type := mkEditor {
  currentPost : json;
  hasUnsavedChanges : bool
}.

Definition trimmed (s : string) : string := str (trim (chars s)).

(** [settings] is the entry of [localStorage] under [SETTINGS_KEY]. *)
Definition getPostData (form : Form) (settings : option (text json))
    (ed : Editor) : result object :=
  let title := trimmed (titleInput form) in
  let content := editorContent form in
  id <- (if truthy (Some (currentPost ed))
         then get_prop (Some (currentPost ed)) "id" else Ok None) ;;
  author <- get_prop (Some (getSettings settings)) "author" ;;
  Ok (<["readTime" := Some (JNum (calculateReadTime content))]>
        (<["published" := Some (JBool (publishedCheckbox form))]>
           (<["author" := author]>
              (<["excerpt" :=
                   Some (JStr (if String.eqb (trimmed (excerptInput form)) ""
                               then generateExcerpt content
                               else trimmed (excerptInput form)))]>
                 (<["featuredImage" := Some (JStr (trimmed (featuredImageInput form)))]>
                    (<["category" := Some (JStr (categorySelect form))]>
                       (<["content" := Some (JStr content)]>
                          (<["slug" := Some (JStr (generateSlug title))]>
                             (<["title" := Some (JStr title)]>
                                (<["id" := id]> ∅)))))))))).

Definition validateForm (requireContent : bool) (form : Form) : bool :=
  if String.eqb (trimmed (titleInput form)) "" then false
  else if requireContent then
    let content := trimmed (editorContent form) in
    negb (String.eqb content "" || String.eqb content "<br>")
  else true.

(** The part the three save methods share in the source text: build the
    record, force [published], save, and keep the saved post. *)
Definition save_as (published : bool) (form : Form)
    (settings : option (text json)) (now : Z) (ed : Editor) (st : storage)
  : Editor * storage :=
  match
    (postData <- getPostData form settings ed ;;
     savePost (<["published" := Some (JBool published)]> postData) now st)
  with
  | Ok (st', savedPost) =>
      (mkEditor (JObj (serializable savedPost)) false, st')
  | Throw _ => (ed, st)
  end.

Definition autoSave (form : Form) (settings : option (text json)) (now : Z)
    (ed : Editor) (st : storage) : Editor * storage :=
  if negb (validateForm false form) then (ed, st)
  else save_as false form settings now ed st.

Definition saveDraft (form : Form) (settings : option (text json)) (now : Z)
    (ed : Editor) (st : storage) : Editor * storage :=
  if negb (validateForm false form) then (ed, st)
  else save_as false form settings now ed st.

(** [confirmed] is the answer to the [confirm] dialog. *)
Definition publish (confirmed : bool) (form : Form)
    (settings : option (text json)) (now : Z) (ed : Editor) (st : storage)
  : Editor * storage :=
  if negb (validateForm true form) then (ed, st)
  else if negb confirmed then (ed, st)
  else save_as true form settings now ed st.

(** [loadPost(postId)]: a post that is not found leaves [currentPost] as it
    is (the page is left for the list of posts). *)
Definition loadPost (postId : string) (ed : Editor) (st : storage)
  : result Editor :=
  post <- getPostById (Some (JStr postId)) st ;;
  if negb (truthy (Some post)) then Ok ed
  else Ok (mkEditor post (hasUnsavedChanges ed)).

Definition deletePost (confirmed : bool) (ed : Editor) (st : storage)
  : result storage :=
  if negb (truthy (Some (currentPost ed))) then Ok st
  else if negb confirmed then Ok st
  else
    id <- get_prop (Some (currentPost ed)) "id" ;;
    Ok (fst (BlogStorage.deletePost id st)).

End BlogEditor.

(** ** Vocabulary of the specification *)

Module Spec.
Import JS JSString.

(** *** Slugs *)

(** The characters a slug is made of: [a-z0-9_-]. *)
Definition slug_ok (c : ascii) : bool :=
  in_range 97 122 c || in_range 48 57 c || (code c =? 95)%N || is_hyphen c.

(** No hyphen is followed by a hyphen. *)
Fixpoint single_hyphens (s : list ascii) : bool :=
  match s with
  | c :: s' =>
      match s' with
      | c' :: _ => negb (is_hyphen c && is_hyphen c') && single_hyphens s'
      | [] => true
      end
  | [] => true
  end.

Fixpoint dropwhile_space (s : list ascii) : list ascii :=
  match s with
  | c :: s' => if is_space c then dropwhile_space s' else c :: s'
  | [] => []
  end.

(** "Collapse runs to single hyphens", in one pass: a character of the
    class is written as a hyphen when the character before it was not of
    the class, and dropped otherwise. *)
Fixpoint collapse (cls : ascii -> bool) (prev : bool) (s : list ascii) : list ascii :=
  match s with
  | [] => []
  | c :: s' =>
      if cls c then (if prev then [] else [hyphen]) ++ collapse cls true s'
      else c :: collapse cls false s'
  end.

(** The slug as section 4.2 words it: lowercase, trim, strip what is not a
    word character, a space or a hyphen, collapse white-space runs to
    single hyphens, collapse repeated hyphens, truncate to 60. *)
Definition slug_of_title (title : string) : string :=
  let lowered := map lower_char (chars title) in
  let trimmed := rev (dropwhile_space (rev (dropwhile_space lowered))) in
  let stripped :=
    List.filter (fun c => is_word c || is_space c || is_hyphen c) trimmed in
  let hyphenated := collapse is_space false stripped in
  let collapsed := collapse is_hyphen false hyphenated in
  str (firstn 60 collapsed).

(** The list of characters [generateSlug] builds before [str]. *)
Definition slug_chars (title : string) : list ascii :=
  substring0 60
    (replace_runs is_hyphen [hyphen]
      (replace_runs is_space [hyphen]
        (remove_except BlogStorage.slug_char (trim (toLowerCase (chars title)))))).

(** *** Post collections *)

(** The [id] of an element of the stored array. *)
Definition post_id (p : json) : value :=
  match p with
  | JObj o => o !! "id"
  | _ => None
  end.

(** The invariant of section 3: no two posts of the collection share an
    [id]. *)
Definition unique_ids (posts : list json) : Prop := NoDup (post_id <$> posts).

(** The collection as [getAllPosts] reads it. *)
Definition collection (st : BlogStorage.storage) : list json :=
  match BlogStorage.getAllPosts st with
  | Ok (JArr l) => l
  | _ => []
  end.

(** Field [k] of the [i]-th stored post. *)
Definition field_at (st : BlogStorage.storage) (i : nat) (k : string) : value :=
  match collection st !! i with
  | Some (JObj o) => o !! k
  | _ => None
  end.

(** [P] with its [title] replaced: the record an editor hands to
    [savePost] when only the title was edited. *)
Definition retitled (P : gmap string json) (title : string) : object :=
  <["title" := Some (JStr title)]> (Some <$> P).

(** The post of the collection [findIndex] stops at for the id [pid]:
    [ps !! i] carries it and no earlier post does. *)
Definition first_with_id (ps : list (gmap string json)) (i : nat)
    (P : gmap string json) (pid : string) : Prop :=
  ps !! i = Some P /\ P !! "id" = Some (JStr pid) /\
  forall j Q, (j < i)%nat -> ps !! j = Some Q -> Q !! "id" <> Some (JStr pid).

(** [{ ...P, ...postData, updatedAt: now }] *)
Definition merged (P : gmap string json) (postData : object) (now : Z) : object :=
  <["updatedAt" := Some (JNum now)]> (postData ∪ (Some <$> P)).

(** *** A stored post, for the examples *)

Definition hello_post : gmap string json :=
  {[ "id" := JStr "hello-2024-01-01"; "title" := JStr "Hello";
     "slug" := JStr "hello"; "createdAt" := JNum 1704067200000;
     "updatedAt" := JNum 1704067200000 ]}.

Definition hello_store : BlogStorage.storage := Some (TextOf (JArr [JObj hello_post])).

(** [a < b] between two values that are numbers. *)
Definition num_lt (a b : value) : Prop :=
  match a, b with
  | Some (JNum x), Some (JNum y) => x < y
  | _, _ => False
  end.

(** The [posts] member of a parsed document: [undefined] when the document
    is not an object or has no such member. *)
Definition posts_member (data : json) : value :=
  match data with
  | JObj o => o !! "posts"
  | _ => None
  end.

(** *** Vocabulary of the further properties *)

(** The posts of a collection other than those with the id [id]. *)
Definition without_id (id : value) (ps : list (gmap string json))
  : list (gmap string json) :=
  List.filter (fun P => negb (strict_eq (P !! "id") id)) ps.

(** The text [savePost] takes for the content of a new post:
    [postData.content || '']. *)
Definition content_of (postData : object) : result string :=
  as_string (Some (BlogStorage.or_else (get_field postData "content") (JStr ""))).

(** No complete tag: no [<] is followed, anywhere later, by a [>]. *)
Fixpoint tag_free (s : list ascii) : bool :=
  match s with
  | [] => true
  | c :: s' =>
      negb (BlogStorage.is_lt c && existsb BlogStorage.is_gt s') && tag_free s'
  end.

(** Words joined by single spaces. *)
Fixpoint join_words (ws : list (list ascii)) : list ascii :=
  match ws with
  | [] => []
  | [w] => w
  | w :: ws' => (w ++ " "%char :: join_words ws')%list
  end.

(** A word: not empty, without white space and without [<]. *)
Definition is_plain_word (w : list ascii) : Prop :=
  w <> [] /\ Forall (fun c => is_space c = false /\ BlogStorage.is_lt c = false) w.

(** [a] holds a number under [key] that is not smaller than the one [b]
    holds. *)
Definition not_older (key : string) (a b : json) : Prop :=
  exists x y, BlogStorage.number_at key a = Some x /\
              BlogStorage.number_at key b = Some y /\ y <= x.

(** The posts of a collection whose [published] is the boolean [flag]. *)
Definition with_flag (flag : bool) (ps : list (gmap string json))
  : list (gmap string json) :=
  List.filter (fun P => strict_eq (P !! "published") (Some (JBool flag))) ps.

(** A hexadecimal digit in lower case. *)
Definition is_hex (c : ascii) : bool := in_range 48 57 c || in_range 97 102 c.

(** The order of the keys of a list sorted by decreasing key. *)
Definition keys_desc (a b : Z * json) : Prop := fst b <= fst a.

(** [getPublishedPosts] for the flag [true], [getDrafts] for [false]. *)
Definition posts_with_flag (flag : bool) (st : BlogStorage.storage)
  : result (option (list json)) :=
  if flag then BlogStorage.getPublishedPosts st else BlogStorage.getDrafts st.

(** An object whose [published] is the boolean [flag]. *)
Definition has_flag (flag : bool) (p : json) : Prop :=
  exists o, p = JObj o /\ o !! "published" = Some (JBool flag).

(** The post of the examples, published, and a draft. *)
Definition live_post : gmap string json :=
  <["published" := JBool true]> hello_post.

Definition draft_post : gmap string json :=
  {[ "id" := JStr "notes-2024-01-02"; "title" := JStr "Notes";
     "slug" := JStr "notes"; "published" := JBool false;
     "createdAt" := JNum 1704153600000; "updatedAt" := JNum 1704153600000 ]}.

Definition live_store : BlogStorage.storage :=
  Some (TextOf (JArr [JObj draft_post; JObj live_post])).

Definition draft_store : BlogStorage.storage :=
  Some (TextOf (JArr [JObj draft_post])).

(** A second published post, newer than [live_post], and two stores with
    unique ids: one with two published posts around a draft, one with a
    post that carries no [published] at all. *)
Definition recent_post : gmap string json :=
  {[ "id" := JStr "recent-2024-01-03"; "title" := JStr "Recent";
     "slug" := JStr "recent"; "published" := JBool true;
     "createdAt" := JNum 1704240000000; "updatedAt" := JNum 1704240000000 ]}.

Definition shelf_store : BlogStorage.storage :=
  Some (TextOf (JArr [JObj live_post; JObj draft_post; JObj recent_post])).

Definition plain_store : BlogStorage.storage :=
  Some (TextOf (JArr [JObj hello_post; JObj draft_post; JObj recent_post])).

(** The durable session of a "remember me" login at [1704067200000], and
    a store that holds it behind the tab-scoped session of a second login,
    one hour before the durable session expires. *)
Definition durable_session : BlogAuth.Session :=
  {| BlogAuth.authenticated := true; BlogAuth.timestamp := 1704067200000;
     BlogAuth.expiresAt := 1706659200000 |}.

Definition both_scopes : BlogAuth.storage :=
  BlogAuth.createSession false 1706655600000 1706655600000
    (BlogAuth.createSession true 1704067200000 1704067200000
       (BlogAuth.mkStorage None None None)).

End Spec.

(** * Properties of the string conversions *)

Module StringFacts.
Import JSString.

Lemma chars_str l : chars (str l) = l.
Proof. apply list_ascii_of_string_of_list_ascii. Qed.

Lemma length_str l : String.length (str l) = length l.
Proof. induction l as [|c l IH]; simpl; [|rewrite IH]; reflexivity. Qed.

End StringFacts.

(** * Properties of [generateSlug] *)

Module SlugTheory.
Import JS JSString BlogStorage Spec StringFacts.

Ltac each_char c := destruct c as [[] [] [] [] [] [] [] []].

(** *** Facts on single characters *)

Lemma lower_char_not_capital c : in_range 65 90 (lower_char c) = false.
Proof. each_char c; reflexivity. Qed.

Lemma slug_ok_intro c :
  slug_char c = true -> is_space c = false -> in_range 65 90 c = false ->
  slug_ok c = true.
Proof. each_char c; vm_compute; congruence. Qed.

Lemma slug_ok_lower c : slug_ok c = true -> lower_char c = c.
Proof. each_char c; vm_compute; congruence. Qed.

Lemma slug_ok_not_space c : slug_ok c = true -> is_space c = false.
Proof. each_char c; vm_compute; congruence. Qed.

Lemma slug_ok_slug_char c : slug_ok c = true -> slug_char c = true.
Proof. each_char c; vm_compute; congruence. Qed.

Lemma is_hyphen_eq c : is_hyphen c = true -> c = hyphen.
Proof. each_char c; vm_compute; congruence. Qed.

(** *** What each step of the pipeline establishes *)

Lemma Forall_trimStart (P : ascii -> Prop) s :
  Forall P s -> Forall P (trimStart s).
Proof.
  induction 1 as [|c s Hc Hs IH]; simpl; [constructor|].
  destruct (is_space c); [exact IH | constructor; assumption].
Qed.

Lemma Forall_trim (P : ascii -> Prop) s : Forall P s -> Forall P (trim s).
Proof.
  intros H. unfold trim, trimEnd.
  apply Forall_rev, Forall_trimStart, Forall_rev, Forall_trimStart, H.
Qed.

Lemma Forall_toLowerCase s :
  Forall (fun c => in_range 65 90 c = false) (toLowerCase s).
Proof.
  unfold toLowerCase. induction s as [|c s IH]; simpl; constructor;
    [apply lower_char_not_capital | exact IH].
Qed.

Lemma Forall_remove_except (P : ascii -> Prop) keep s :
  Forall P s ->
  Forall (fun c => keep c = true /\ P c) (remove_except keep s).
Proof.
  unfold remove_except.
  induction 1 as [|c s Hc Hs IH]; simpl; [constructor|].
  destruct (keep c) eqn:Hk; [constructor; auto | exact IH].
Qed.

Lemma replace_spaces_ok s :
  Forall (fun c => slug_char c = true /\ in_range 65 90 c = false) s ->
  Forall (fun c => slug_ok c = true) (replace_runs is_space [hyphen] s) /\
  Forall (fun c => slug_ok c = true) (in_run is_space [hyphen] s).
Proof.
  induction 1 as [|c s [Hk Hu] Hs [IH1 IH2]]; simpl.
  - split; repeat constructor.
  - destruct (is_space c) eqn:Hsp.
    + split; exact IH2.
    + pose proof (slug_ok_intro c Hk Hsp Hu) as Hok.
      split; repeat constructor; assumption.
Qed.

Lemma replace_hyphens_ok s :
  Forall (fun c => slug_ok c = true) s ->
  Forall (fun c => slug_ok c = true) (replace_runs is_hyphen [hyphen] s) /\
  Forall (fun c => slug_ok c = true) (in_run is_hyphen [hyphen] s).
Proof.
  induction 1 as [|c s Hc Hs [IH1 IH2]]; simpl.
  - split; repeat constructor.
  - destruct (is_hyphen c); split; repeat constructor; assumption.
Qed.

Lemma single_hyphens_cons c s :
  is_hyphen c = false -> single_hyphens (c :: s) = single_hyphens s.
Proof. intros H. simpl. rewrite H. destruct s; reflexivity. Qed.

Lemma single_hyphens_cons2 c' c s :
  is_hyphen c = false -> single_hyphens (c' :: c :: s) = single_hyphens s.
Proof.
  intros H. rewrite <- (single_hyphens_cons c s H).
  cbn [single_hyphens]. rewrite H, andb_false_r. reflexivity.
Qed.

Lemma replace_hyphens_single s :
  single_hyphens (replace_runs is_hyphen [hyphen] s) = true /\
  single_hyphens (in_run is_hyphen [hyphen] s) = true.
Proof.
  induction s as [|c s [IH1 IH2]]; [split; reflexivity|].
  cbn [replace_runs in_run]. destruct (is_hyphen c) eqn:Hc.
  - split; exact IH2.
  - split.
    + rewrite single_hyphens_cons by exact Hc. exact IH1.
    + change ([hyphen] ++ c :: replace_runs is_hyphen [hyphen] s)%list
        with (hyphen :: c :: replace_runs is_hyphen [hyphen] s).
      rewrite single_hyphens_cons2 by exact Hc. exact IH1.
Qed.

Lemma single_hyphens_firstn n s :
  single_hyphens s = true -> single_hyphens (firstn n s) = true.
Proof.
  revert s. induction n as [|n IH]; intros s H; [reflexivity|].
  destruct s as [|c s]; [reflexivity|].
  cbn [firstn]. pose proof (IH s) as IHs.
  destruct s as [|c' s]; [destruct n; reflexivity|].
  cbn [single_hyphens] in H. apply andb_true_iff in H as [H1 H2].
  specialize (IHs H2). destruct n as [|n]; [reflexivity|].
  cbn [firstn] in *. cbn [single_hyphens].
  rewrite H1. exact IHs.
Qed.

Lemma slug_chars_normal title :
  Forall (fun c => slug_ok c = true) (slug_chars title) /\
  single_hyphens (slug_chars title) = true /\
  (length (slug_chars title) <= 60)%nat.
Proof.
  unfold slug_chars, substring0. split; [|split].
  - apply Forall_take.
    apply replace_hyphens_ok, replace_spaces_ok.
    eapply Forall_impl;
      [apply Forall_remove_except, Forall_trim, Forall_toLowerCase|].
    intros c [? ?]; auto.
  - apply single_hyphens_firstn, replace_hyphens_single.
  - rewrite length_take. lia.
Qed.

(** *** A normal slug is a fixed point of every step *)

Lemma toLowerCase_id s :
  Forall (fun c => slug_ok c = true) s -> toLowerCase s = s.
Proof.
  unfold toLowerCase. induction 1 as [|c s Hc Hs IH]; simpl; [reflexivity|].
  rewrite (slug_ok_lower c Hc), IH. reflexivity.
Qed.

Lemma trimStart_id s :
  Forall (fun c => slug_ok c = true) s -> trimStart s = s.
Proof.
  destruct 1 as [|c s Hc Hs]; simpl; [reflexivity|].
  rewrite (slug_ok_not_space c Hc). reflexivity.
Qed.

Lemma trim_id s : Forall (fun c => slug_ok c = true) s -> trim s = s.
Proof.
  intros H. unfold trim, trimEnd.
  rewrite (trimStart_id s H), trimStart_id by (apply Forall_rev, H).
  apply rev_involutive.
Qed.

Lemma remove_except_id s :
  Forall (fun c => slug_ok c = true) s -> remove_except slug_char s = s.
Proof.
  unfold remove_except. induction 1 as [|c s Hc Hs IH]; simpl; [reflexivity|].
  rewrite (slug_ok_slug_char c Hc), IH. reflexivity.
Qed.

Lemma replace_spaces_id r s :
  Forall (fun c => slug_ok c = true) s -> replace_runs is_space r s = s.
Proof.
  induction 1 as [|c s Hc Hs IH]; simpl; [reflexivity|].
  rewrite (slug_ok_not_space c Hc), IH. reflexivity.
Qed.

Lemma replace_hyphens_id s :
  single_hyphens s = true -> replace_runs is_hyphen [hyphen] s = s.
Proof.
  induction s as [|c s IH]; intros H; [reflexivity|].
  cbn [replace_runs]. destruct (is_hyphen c) eqn:Hc.
  - apply is_hyphen_eq in Hc as ->.
    destruct s as [|c' s]; [reflexivity|].
    cbn [single_hyphens] in H. apply andb_true_iff in H as [H1 H2].
    change (is_hyphen hyphen) with true in H1. cbn [andb] in H1.
    apply negb_true_iff in H1.
    specialize (IH H2). cbn [replace_runs] in IH. rewrite H1 in IH.
    cbn [in_run]. rewrite H1. simpl. congruence.
  - rewrite single_hyphens_cons in H by exact Hc. rewrite (IH H). reflexivity.
Qed.

Lemma generateSlug_unfold title : generateSlug title = str (slug_chars title).
Proof. reflexivity. Qed.

(** *** The two formulations of the steps agree *)

Lemma dropwhile_space_trimStart s : dropwhile_space s = trimStart s.
Proof. induction s as [|c s IH]; simpl; [|rewrite IH]; reflexivity. Qed.

Lemma collapse_replace_runs cls s :
  collapse cls false s = replace_runs cls [hyphen] s /\
  hyphen :: collapse cls true s = in_run cls [hyphen] s.
Proof.
  induction s as [|c s [IH1 IH2]]; [split; reflexivity|].
  cbn [collapse replace_runs in_run]. destruct (cls c); simpl.
  - split; exact IH2.
  - rewrite IH1. split; reflexivity.
Qed.

(** C7.  [generateSlug] is the function of section 4.2: lowercase, trim,
    strip every character that is not a word character, a space or a
    hyphen, collapse white-space runs to single hyphens, collapse repeated
    hyphens, truncate to 60 characters; the result has at most 60
    characters, and the title "Hello, World! 2024" gives
    "hello-world-2024". *)
Theorem generateSlug_spec :
  (forall title : string,
      generateSlug title = slug_of_title title /\
      (String.length (generateSlug title) <= 60)%nat) /\
  generateSlug "Hello, World! 2024" = "hello-world-2024".
Proof.
  split; [|reflexivity].
  intros title. split.
  - unfold generateSlug, slug_of_title, trim, trimEnd, toLowerCase,
      remove_except, substring0, slug_char.
    rewrite !dropwhile_space_trimStart.
    rewrite !(proj1 (collapse_replace_runs _ _)). reflexivity.
  - rewrite generateSlug_unfold, length_str.
    apply (slug_chars_normal title).
Qed.

(** C8.  [generateSlug] is idempotent: the slug of a slug is that slug. *)
Theorem generateSlug_idempotent (T : string) :
  generateSlug (generateSlug T) = generateSlug T.
Proof.
  rewrite (generateSlug_unfold T).
  destruct (slug_chars_normal T) as (Hok & Hsingle & Hlen).
  unfold generateSlug. rewrite chars_str.
  rewrite (toLowerCase_id _ Hok), (trim_id _ Hok), (remove_except_id _ Hok),
    (replace_spaces_id _ _ Hok), (replace_hyphens_id _ Hsingle).
  unfold substring0. rewrite firstn_all2 by exact Hlen. reflexivity.
Qed.

End SlugTheory.

(** * Properties of the content store *)

Module StorageTheory.
Import JS JSString BlogStorage Spec.

(** *** Reading the store *)

Lemma getAllPosts_saved v st : getAllPosts (savePosts v st) = Ok v.
Proof. reflexivity. Qed.

Lemma collection_saved l st : collection (savePosts (JArr l) st) = l.
Proof. reflexivity. Qed.

Lemma field_at_saved (ps : list (gmap string json)) i P k st :
  ps !! i = Some P ->
  field_at (savePosts (JArr (JObj <$> ps)) st) i k = P !! k.
Proof.
  intros H. unfold field_at. rewrite collection_saved, list_lookup_fmap, H.
  reflexivity.
Qed.

(** *** [findIndex] on a collection of post objects *)

Lemma strict_eq_str a s : strict_eq a (Some (JStr s)) = true <-> a = Some (JStr s).
Proof.
  destruct a as [[| | |s'| |]|]; simpl; try (split; congruence).
  rewrite String.eqb_eq. split; congruence.
Qed.

Lemma strict_eq_str_false a s :
  a <> Some (JStr s) -> strict_eq a (Some (JStr s)) = false.
Proof.
  intros H. destruct (strict_eq a (Some (JStr s))) eqn:E; [|reflexivity].
  apply strict_eq_str in E. contradiction.
Qed.

Lemma findIndex_cons f x l :
  findIndex f (x :: l)
  = bind (f x) (fun b => if b then Ok (Some 0%nat)
                         else bind (findIndex f l) (fun i => Ok (S <$> i))).
Proof. reflexivity. Qed.

Lemma findIndex_first (ps : list (gmap string json)) i P pid :
  first_with_id ps i P pid ->
  findIndex (fun p => bind (get_prop (Some p) "id")
                        (fun found => Ok (strict_eq found (Some (JStr pid)))))
            (JObj <$> ps)
  = Ok (Some i).
Proof.
  revert i. induction ps as [|Q ps IH]; intros i (Hi & Hid & Hfirst).
  - rewrite lookup_nil in Hi. discriminate.
  - rewrite fmap_cons, findIndex_cons. cbv beta.
    change (get_prop (Some (JObj Q)) "id") with (Ok (A:=value) (Q !! "id")).
    cbn [bind]. destruct i as [|i].
    + injection Hi as ->.
      rewrite (proj2 (strict_eq_str _ _) Hid). reflexivity.
    + rewrite strict_eq_str_false by (apply (Hfirst 0%nat Q); [lia|reflexivity]).
      rewrite (IH i); [reflexivity|].
      split; [exact Hi|split; [exact Hid|]].
      intros j R Hj HR. apply (Hfirst (S j) R); [lia|exact HR].
Qed.

(** *** The update branch of [savePost] *)

Lemma savePost_update (ps : list (gmap string json)) i P pid postData now st :
  getAllPosts st = Ok (JArr (JObj <$> ps)) ->
  first_with_id ps i P pid ->
  get_field postData "id" = Some (JStr pid) ->
  savePost postData now st
  = Ok (savePosts (JArr (JObj <$> <[i := serializable (merged P postData now)]> ps)) st,
        merged P postData now).
Proof.
  intros Hget Hfirst Hid. unfold savePost.
  rewrite Hget. cbn [bind as_array]. rewrite Hid.
  rewrite (findIndex_first ps i P pid Hfirst). cbn [bind try_catch].
  destruct Hfirst as (Hi & _ & _).
  rewrite list_lookup_fmap, Hi. cbn [fmap option_fmap option_map own_props].
  rewrite list_fmap_insert. reflexivity.
Qed.

Lemma serializable_merged P postData now k :
  k <> "updatedAt" ->
  serializable (merged P postData now) !! k
  = match postData !! k with
    | Some supplied => supplied
    | None => P !! k
    end.
Proof.
  intros Hk. unfold serializable, merged.
  rewrite lookup_omap, lookup_insert_ne by congruence.
  rewrite lookup_union, lookup_fmap.
  destruct (postData !! k) as [v|], (P !! k); reflexivity.
Qed.

Lemma serializable_merged_updatedAt P postData now :
  serializable (merged P postData now) !! "updatedAt" = Some (JNum now).
Proof.
  unfold serializable, merged. rewrite lookup_omap, lookup_insert_eq.
  reflexivity.
Qed.

Lemma first_with_id_insert ps i P pid Q :
  first_with_id ps i P pid -> Q !! "id" = Some (JStr pid) ->
  first_with_id (<[i := Q]> ps) i Q pid.
Proof.
  intros (Hi & Hid & Hfirst) HQ. split; [|split; [exact HQ|]].
  - apply list_lookup_insert_eq. eapply lookup_lt_Some, Hi.
  - intros j R Hj HR. rewrite list_lookup_insert_ne in HR by lia.
    eapply Hfirst; eassumption.
Qed.

Lemma retitled_lookup P title k :
  k <> "title" -> retitled P title !! k = Some <$> P !! k.
Proof.
  intros Hk. unfold retitled.
  rewrite lookup_insert_ne by congruence. apply lookup_fmap.
Qed.

Lemma retitled_id P title pid :
  P !! "id" = Some (JStr pid) ->
  get_field (retitled P title) "id" = Some (JStr pid).
Proof.
  intros H. unfold get_field. rewrite retitled_lookup by discriminate.
  rewrite H. reflexivity.
Qed.

Lemma merged_retitled P title now k :
  k <> "updatedAt" -> k <> "title" ->
  serializable (merged P (retitled P title) now) !! k = P !! k.
Proof.
  intros Hu Ht. rewrite serializable_merged by exact Hu.
  rewrite retitled_lookup by exact Ht.
  destruct (P !! k); reflexivity.
Qed.

(** *** The identifier of a new post *)

(** C1, evaluated on the code.  Two posts titled "Hello" are created on
    2024-01-01, one millisecond apart, in an empty store.  The store is in
    the state of the invariant before and after the first save; after the
    second, both posts carry the id "hello-2024-01-01". *)
Theorem savePost_same_day_same_id :
  let postData : object := {[ "title" := Some (JStr "Hello") ]} in
  unique_ids (collection None) /\
  match savePost postData 1704067200000 None with
  | Ok (st1, _) =>
      unique_ids (collection st1) /\
      match savePost postData 1704067200001 st1 with
      | Ok (st2, _) =>
          post_id <$> collection st2
          = [Some (JStr "hello-2024-01-01"); Some (JStr "hello-2024-01-01")] /\
          ~ unique_ids (collection st2)
      | Throw _ => False
      end
  | Throw _ => False
  end.
Proof.
  cbv zeta. split; [constructor|].
  destruct (savePost _ 1704067200000 None) as [[st1 post1]|e] eqn:E1;
    vm_compute in E1; [|discriminate].
  injection E1 as <- _. split.
  - vm_compute. apply NoDup_singleton.
  - match goal with
    | |- match ?call with _ => _ end =>
        destruct call as [[st2 post2]|e] eqn:E2
    end; vm_compute in E2; [|discriminate].
    injection E2 as <- _. split; [vm_compute; reflexivity|].
    intros H. vm_compute in H.
    apply NoDup_cons in H as [Hin _]. apply Hin. left.
Qed.

(** *** The slug on an update *)

(** C2 as stated fails: the post "Hello" is saved with the new title
    "New Title" and no slug; the stored slug is still "hello", not
    "new-title". *)
Lemma savePost_keeps_slug :
  let postData : object :=
    {[ "id" := Some (JStr "hello-2024-01-01");
       "title" := Some (JStr "New Title") ]} in
  match savePost postData 1704067260000 hello_store with
  | Ok (st', _) =>
      field_at st' 0 "title" = Some (JStr "New Title") /\
      field_at st' 0 "slug" = Some (JStr "hello") /\
      field_at st' 0 "slug" <> Some (JStr (generateSlug "New Title"))
  | Throw _ => False
  end.
Proof.
  cbv zeta.
  match goal with
  | |- match ?call with _ => _ end => destruct call as [[st' post]|e] eqn:E
  end; vm_compute in E; [|discriminate].
  injection E as <- _.
  split; [vm_compute; reflexivity|split; [vm_compute; reflexivity|]].
  vm_compute. discriminate.
Qed.

(** C2, amended.  When [savePost] is given a record whose [id] is that of
    a stored post, it updates the first post of the collection that
    carries this id (every post is the first when ids are unique); that
    post's slug afterwards is the slug the record supplies, and the slug it
    had before when the record supplies none: [savePost] does not recompute
    it from the title. *)
Theorem savePost_update_slug (ps : list (gmap string json)) i P pid
    (postData : object) now st :
  getAllPosts st = Ok (JArr (JObj <$> ps)) ->
  first_with_id ps i P pid ->
  get_field postData "id" = Some (JStr pid) ->
  exists st' post,
    savePost postData now st = Ok (st', post) /\
    field_at st' i "slug"
    = match postData !! "slug" with
      | Some supplied => supplied
      | None => P !! "slug"
      end.
Proof.
  intros Hget Hfirst Hid.
  eexists _, _. split; [apply (savePost_update ps i P pid); assumption|].
  destruct Hfirst as (Hi & _ & _).
  erewrite field_at_saved
    by (apply list_lookup_insert_eq; eapply lookup_lt_Some, Hi).
  apply serializable_merged. discriminate.
Qed.

Lemma savePost_update_slug_witness :
  let postData : object :=
    {[ "id" := Some (JStr "hello-2024-01-01");
       "title" := Some (JStr "New Title") ]} in
  exists st' post,
    savePost postData 1704067260000 hello_store = Ok (st', post) /\
    field_at st' 0 "slug"
    = match postData !! "slug" with
      | Some supplied => supplied
      | None => hello_post !! "slug"
      end.
Proof.
  cbv zeta.
  apply (savePost_update_slug [hello_post] 0 hello_post "hello-2024-01-01").
  - reflexivity.
  - split; [reflexivity|split; [reflexivity|intros j Q Hj; lia]].
  - vm_compute. reflexivity.
Defined.

(** *** Two saves in succession *)

(** C4 as stated fails: two saves of the post "Hello", with only the title
    changed, that read the same clock value leave [updatedAt] equal. *)
Lemma savePost_twice_same_millisecond :
  match savePost (retitled hello_post "First") 1704067260000 hello_store with
  | Ok (st1, post1) =>
      match savePost (retitled (serializable post1) "Second") 1704067260000 st1 with
      | Ok (st2, _) =>
          field_at st1 0 "updatedAt" = Some (JNum 1704067260000) /\
          field_at st2 0 "updatedAt" = Some (JNum 1704067260000) /\
          ~ num_lt (field_at st1 0 "updatedAt") (field_at st2 0 "updatedAt")
      | Throw _ => False
      end
  | Throw _ => False
  end.
Proof.
  match goal with
  | |- match ?call with _ => _ end => destruct call as [[st1 post1]|e] eqn:E1
  end; vm_compute in E1; [|discriminate].
  injection E1 as <- <-.
  match goal with
  | |- match ?call with _ => _ end => destruct call as [[st2 post2]|e] eqn:E2
  end; vm_compute in E2; [|discriminate].
  injection E2 as <- _.
  split; [vm_compute; reflexivity|split; [vm_compute; reflexivity|]].
  vm_compute. intros H. discriminate H.
Qed.

(** C4, amended.  When a stored post that is the first of the collection
    to carry its id (every post is, when ids are unique) is saved twice in
    succession with only its title changed, [id] and [createdAt] are
    unchanged by both saves and [updatedAt] is, after each save, the clock
    value that save read: it strictly increases exactly when the second
    save read a later clock value than the first. *)
Theorem savePost_twice (ps : list (gmap string json)) i P pid
    title1 title2 now1 now2 st :
  getAllPosts st = Ok (JArr (JObj <$> ps)) ->
  first_with_id ps i P pid ->
  exists st1 post1 st2 post2,
    savePost (retitled P title1) now1 st = Ok (st1, post1) /\
    savePost (retitled (serializable post1) title2) now2 st1 = Ok (st2, post2) /\
    field_at st1 i "id" = P !! "id" /\
    field_at st2 i "id" = P !! "id" /\
    field_at st1 i "createdAt" = P !! "createdAt" /\
    field_at st2 i "createdAt" = P !! "createdAt" /\
    field_at st1 i "updatedAt" = Some (JNum now1) /\
    field_at st2 i "updatedAt" = Some (JNum now2) /\
    (num_lt (field_at st1 i "updatedAt") (field_at st2 i "updatedAt")
     <-> now1 < now2).
Proof.
  intros Hget Hfirst.
  pose proof Hfirst as (Hi & Hid & _).
  pose proof (lookup_lt_Some _ _ _ Hi) as Hlt.
  set (P1 := serializable (merged P (retitled P title1) now1)).
  set (P2 := serializable (merged P1 (retitled P1 title2) now2)).
  assert (Hid1 : P1 !! "id" = Some (JStr pid))
    by (unfold P1; rewrite merged_retitled by discriminate; exact Hid).
  pose proof (first_with_id_insert ps i P pid P1 Hfirst Hid1) as Hfirst1.
  assert (E1 : forall k, field_at
                 (savePosts (JArr (JObj <$> <[i := P1]> ps)) st) i k = P1 !! k)
    by (intros k; apply field_at_saved, list_lookup_insert_eq; exact Hlt).
  assert (E2 : forall st' k, field_at
                 (savePosts (JArr (JObj <$> <[i := P2]> (<[i := P1]> ps))) st') i k
               = P2 !! k).
  { intros st' k. apply field_at_saved, list_lookup_insert_eq.
    rewrite length_insert. exact Hlt. }
  eexists _, _, _, _.
  split; [apply (savePost_update ps i P pid);
          [exact Hget|exact Hfirst|apply retitled_id, Hid]|].
  split; [apply (savePost_update (<[i := P1]> ps) i P1 pid);
          [apply getAllPosts_saved|exact Hfirst1|apply retitled_id, Hid1]|].
  fold P1. fold P2. rewrite !E1, !E2.
  assert (Hk : forall k, k <> "updatedAt" -> k <> "title" -> P1 !! k = P !! k)
    by (intros k Hu Ht; apply merged_retitled; assumption).
  assert (Hk2 : forall k, k <> "updatedAt" -> k <> "title" -> P2 !! k = P !! k)
    by (intros k Hu Ht; unfold P2; rewrite merged_retitled by assumption;
        apply Hk; assumption).
  assert (U1 : P1 !! "updatedAt" = Some (JNum now1))
    by apply serializable_merged_updatedAt.
  assert (U2 : P2 !! "updatedAt" = Some (JNum now2))
    by apply serializable_merged_updatedAt.
  rewrite U1, U2, !Hk, !Hk2 by discriminate.
  repeat split; auto.
Qed.

Lemma savePost_twice_witness :
  exists st1 post1 st2 post2,
    savePost (retitled hello_post "First") 1704067260000 hello_store
    = Ok (st1, post1) /\
    savePost (retitled (serializable post1) "Second") 1704067320000 st1
    = Ok (st2, post2) /\
    field_at st1 0 "id" = hello_post !! "id" /\
    field_at st2 0 "id" = hello_post !! "id" /\
    field_at st1 0 "createdAt" = hello_post !! "createdAt" /\
    field_at st2 0 "createdAt" = hello_post !! "createdAt" /\
    field_at st1 0 "updatedAt" = Some (JNum 1704067260000) /\
    field_at st2 0 "updatedAt" = Some (JNum 1704067320000) /\
    (num_lt (field_at st1 0 "updatedAt") (field_at st2 0 "updatedAt")
     <-> 1704067260000 < 1704067320000).
Proof.
  apply (savePost_twice [hello_post] 0 hello_post "hello-2024-01-01").
  - reflexivity.
  - split; [reflexivity|split; [reflexivity|intros j Q Hj; lia]].
Defined.

(** *** Export and import *)

(** C6.  Round trip: when the store holds a post collection, importing
    what [exportToJSON] returns succeeds, reports the number of posts and
    leaves the collection [getAllPosts] reads as it was: the same posts,
    in the same order, with the same fields. *)
Theorem export_import_roundtrip (st : storage) (l : list json) :
  getAllPosts st = Ok (JArr l) ->
  exists exported st',
    exportToJSON st = Ok exported /\
    importFromJSON exported st = Ok (st', Some (JNum (Z.of_nat (length l)))) /\
    getAllPosts st' = Ok (JArr l) /\
    collection st' = collection st.
Proof.
  intros Hget. unfold exportToJSON. rewrite Hget. cbn [bind].
  eexists _, _. split; [reflexivity|].
  unfold importFromJSON, JSON_stringify.
  cbn [JSON_parse bind get_prop].
  rewrite lookup_singleton_eq. cbn [or_else truthy bind get_prop try_catch].
  split; [reflexivity|]. split; [reflexivity|].
  unfold collection. rewrite Hget. reflexivity.
Qed.

Lemma export_import_roundtrip_witness :
  exists exported st',
    exportToJSON hello_store = Ok exported /\
    importFromJSON exported hello_store = Ok (st', Some (JNum 1)) /\
    getAllPosts st' = Ok (JArr [JObj hello_post]) /\
    collection st' = collection hello_store.
Proof.
  apply (export_import_roundtrip hello_store [JObj hello_post]).
  reflexivity.
Defined.

(** C10 as stated fails: the text [null] parses as JSON and has no
    [posts] array, and [importFromJSON] signals the format error on it. *)
Lemma importFromJSON_null :
  JSON_parse (TextOf JNull) = Ok JNull /\
  importFromJSON (TextOf JNull) hello_store = Throw (Error "Invalid JSON format").
Proof. split; reflexivity. Qed.

Lemma get_prop_posts data :
  data <> JNull -> get_prop (Some data) "posts" = Ok (posts_member data).
Proof. destruct data; intros H; try reflexivity. contradiction. Qed.

(** C10, amended.  For every input that parses to a JSON value other than
    [null] whose [posts] member is absent or falsy (the text [{}] is one),
    [importFromJSON] signals no error: it replaces the stored collection by
    the empty list and returns 0. *)
Theorem importFromJSON_without_posts (data : json) (st : storage) :
  data <> JNull ->
  truthy (posts_member data) = false ->
  importFromJSON (TextOf data) st = Ok (savePosts (JArr []) st, Some (JNum 0)) /\
  getAllPosts (savePosts (JArr []) st) = Ok (JArr []).
Proof.
  intros Hnull Hfalsy. split; [|reflexivity].
  unfold importFromJSON. cbn [JSON_parse bind].
  rewrite (get_prop_posts data Hnull). cbn [bind].
  replace (or_else (posts_member data) (JArr [])) with (JArr []);
    [reflexivity|].
  unfold or_else. rewrite Hfalsy. destruct (posts_member data); reflexivity.
Qed.

Lemma importFromJSON_without_posts_witness :
  importFromJSON (TextOf (JObj ∅)) hello_store
  = Ok (savePosts (JArr []) hello_store, Some (JNum 0)) /\
  getAllPosts (savePosts (JArr []) hello_store) = Ok (JArr []).
Proof.
  apply (importFromJSON_without_posts (JObj ∅) hello_store).
  - discriminate.
  - reflexivity.
Defined.

End StorageTheory.

(** * Properties of the credential gate *)

Module AuthTheory.
Import JS JSString BlogAuth StringFacts.

(** *** The digest is 64 hexadecimal digits *)

Lemma round_length s kw : length s = 8%nat -> length (SHA256.round s kw) = 8%nat.
Proof.
  intros H. do 9 (destruct s as [|? s]; try discriminate H). reflexivity.
Qed.

Lemma rounds_length kws s :
  length s = 8%nat -> length (fold_left SHA256.round kws s) = 8%nat.
Proof.
  revert s. induction kws as [|kw kws IH]; intros s H; [exact H|].
  apply IH, round_length, H.
Qed.

Lemma compress_length h block :
  length h = 8%nat -> length (SHA256.compress h block) = 8%nat.
Proof.
  intros H. unfold SHA256.compress.
  rewrite length_map, length_combine, rounds_length by exact H. lia.
Qed.

Lemma blocks_length blocks h :
  length h = 8%nat -> length (fold_left SHA256.compress blocks h) = 8%nat.
Proof.
  revert h. induction blocks as [|b blocks IH]; intros h H; [exact H|].
  apply IH, compress_length, H.
Qed.

Lemma flat_map_length {A B : Type} (f : A -> list B) n l :
  (forall x, length (f x) = n) -> length (flat_map f l) = (n * length l)%nat.
Proof.
  intros Hf. induction l as [|x l IH]; simpl; [lia|].
  rewrite length_app, Hf, IH. lia.
Qed.

Lemma digest_length msg : length (SHA256.digest msg) = 32%nat.
Proof.
  unfold SHA256.digest.
  rewrite (flat_map_length _ 4) by reflexivity.
  rewrite blocks_length by reflexivity. reflexivity.
Qed.

Lemma hashPassword_length password : String.length (hashPassword password) = 64%nat.
Proof.
  unfold hashPassword.
  rewrite length_str, (flat_map_length _ 2), digest_length by reflexivity.
  reflexivity.
Qed.

Lemma eqb_empty_false s : (0 < String.length s)%nat -> String.eqb s "" = false.
Proof. destruct s; simpl; [lia|reflexivity]. Qed.

(** *** Login *)

(** C3 as stated fails: the password "abc" is shorter than six
    characters, and the first login on a store without a credential is
    refused; nothing is stored. *)
Lemma login_short_password :
  let st := mkStorage None None None in
  login "abc" false 1704067200000 1704067200000 st
  = (st, {| success := false;
            message := "Failed to set password. Please try again.";
            firstTime := None |}).
Proof. reflexivity. Qed.

(** C3, amended.  For every password of at least six characters, [login]
    on a store with no credential stores the digest of the password,
    creates a session and returns success with [firstTime] true, and a
    second [login] with the same password on the resulting store returns
    success with [firstTime] false. *)
Theorem login_first_then_again pw rememberMe rememberMe' t1 t2 t3 t4 st :
  local_password st = None ->
  (6 <= String.length pw)%nat ->
  let st1 :=
    createSession rememberMe t1 t2
      (set_local_password (Some (hashPassword pw)) st) in
  login pw rememberMe t1 t2 st
  = (st1, {| success := true;
             message := "Password set successfully! Welcome to your blog admin.";
             firstTime := Some true |}) /\
  local_password st1 = Some (hashPassword pw) /\
  login pw rememberMe' t3 t4 st1
  = (createSession rememberMe' t3 t4 st1,
     {| success := true; message := "Login successful!";
        firstTime := Some false |}).
Proof.
  intros Hnone Hlen st1.
  assert (Hpw : local_password st1 = Some (hashPassword pw))
    by (unfold st1, createSession; destruct rememberMe; reflexivity).
  split; [|split; [exact Hpw|]].
  - unfold login, isPasswordSet, setPassword. rewrite Hnone. cbn [negb].
    rewrite eqb_empty_false by lia.
    replace (String.length pw <? 6)%nat with false
      by (symmetry; apply Nat.ltb_ge; exact Hlen).
    reflexivity.
  - unfold login, isPasswordSet, verifyPassword. rewrite Hpw. cbn [negb].
    rewrite eqb_empty_false by (rewrite hashPassword_length; lia).
    rewrite String.eqb_refl. reflexivity.
Qed.

Lemma login_first_then_again_witness :
  let st := mkStorage None None None in
  let st1 :=
    createSession false 1704067200000 1704067200000
      (set_local_password (Some (hashPassword "secret1")) st) in
  login "secret1" false 1704067200000 1704067200000 st
  = (st1, {| success := true;
             message := "Password set successfully! Welcome to your blog admin.";
             firstTime := Some true |}) /\
  local_password st1 = Some (hashPassword "secret1") /\
  login "secret1" false 1704067260000 1704067260000 st1
  = (createSession false 1704067260000 1704067260000 st1,
     {| success := true; message := "Login successful!";
        firstTime := Some false |}).
Proof.
  apply (login_first_then_again "secret1" false false).
  - reflexivity.
  - simpl. lia.
Defined.

(** *** Sessions *)

Lemma getSession_Some st s :
  getSession st = Some s <-> sessionData st = Some (TextOf s).
Proof.
  unfold getSession.
  destruct (sessionData st) as [[| |s']|]; simpl; split; congruence.
Qed.

(** A session is reported authenticated only while it has not expired:
    when [isAuthenticated] returns true, the lookup found a record whose
    [expiresAt] is not before the time of the call, and nothing was
    cleared. *)
Lemma isAuthenticated_true st now st' :
  isAuthenticated now st = (st', true) ->
  exists s, getSession st = Some s /\ now <= expiresAt s /\
            authenticated s = true /\ st' = st.
Proof.
  unfold isAuthenticated, getSession.
  destruct (sessionData st) as [[| |s]|]; simpl; try discriminate.
  destruct (now >? expiresAt s) eqn:E; [discriminate|].
  intros H. injection H as <- Hauth. exists s.
  rewrite Z.gtb_ltb in E. apply Z.ltb_ge in E.
  destruct (authenticated s); [auto|discriminate].
Qed.

(** C5 as stated fails: a durable session that has expired is stored
    behind a tab-scoped session that has not; [isAuthenticated], called
    after the durable session's [expiresAt], returns true and clears
    nothing. *)
Lemma isAuthenticated_behind_tab_session :
  let now := 1706659201000 in
  local_session Spec.both_scopes = Some (TextOf Spec.durable_session) /\
  expiresAt Spec.durable_session < now /\
  isAuthenticated now Spec.both_scopes = (Spec.both_scopes, true).
Proof. repeat split. Qed.

(** C5, amended.  When the session record the lookup finds (the
    tab-scoped record when the tab scope holds one, the durable record
    otherwise) has an [expiresAt] strictly before the time of the call,
    [isAuthenticated] returns false and leaves no session record in either
    scope. *)
Theorem isAuthenticated_expired st s now :
  getSession st = Some s ->
  expiresAt s < now ->
  isAuthenticated now st = (logout st, false) /\
  tab_session (logout st) = None /\
  local_session (logout st) = None /\
  getSession (logout st) = None.
Proof.
  intros Hs Hexp. apply getSession_Some in Hs.
  split; [|repeat split].
  unfold isAuthenticated. rewrite Hs. cbn [text_truthy negb JSON_parse].
  replace (now >? expiresAt s) with true by (symmetry; apply Z.gtb_lt; exact Hexp).
  reflexivity.
Qed.

(** The scenario of section 8: 24 hours and one second after
    [createSession(false)]. *)
Lemma isAuthenticated_expired_witness :
  let st := createSession false 1704067200000 1704067200000
              (mkStorage None None None) in
  let now := 1704067200000 + SESSION_DURATION + 1000 in
  isAuthenticated now st = (logout st, false) /\
  tab_session (logout st) = None /\
  local_session (logout st) = None /\
  getSession (logout st) = None.
Proof.
  cbv zeta.
  apply (isAuthenticated_expired _
           {| authenticated := true; timestamp := 1704067200000;
              expiresAt := 1704067200000 + SESSION_DURATION |}).
  - reflexivity.
  - vm_compute. reflexivity.
Defined.

(** C9 as stated fails: a durable 30-day session is stored behind a
    tab-scoped session; [extendSession] leaves the durable record as it
    was, with an [expiresAt] that is not the time of the call plus 24
    hours. *)
Lemma extendSession_behind_tab_session :
  let now := 1706655660000 in
  local_session Spec.both_scopes = Some (TextOf Spec.durable_session) /\
  local_session (extendSession now Spec.both_scopes) = Some (TextOf Spec.durable_session) /\
  expiresAt Spec.durable_session <> now + SESSION_DURATION.
Proof. cbv zeta. repeat split. vm_compute. discriminate. Qed.

(** C9, amended.  When the lookup finds a session record (the tab-scoped
    record when the tab scope holds one, the durable record otherwise),
    [extendSession] writes that record back with [expiresAt] equal to the
    time of the call plus 24 hours, whatever duration it was created with,
    into the scope it was found in, and writes nothing else; so a record
    found with more than 24 hours left gets an earlier [expiresAt]. *)
Theorem extendSession_resets st s now :
  getSession st = Some s ->
  let s' := {| authenticated := authenticated s; timestamp := timestamp s;
               expiresAt := now + SESSION_DURATION |} in
  getSession (extendSession now st) = Some s' /\
  extendSession now st
  = (if text_truthy (tab_session st)
     then set_tab_session (Some (TextOf s')) st
     else set_local_session (Some (TextOf s')) st) /\
  (SESSION_DURATION < expiresAt s - now -> expiresAt s' < expiresAt s).
Proof.
  intros Hs s'. unfold extendSession. rewrite Hs. fold s'.
  apply getSession_Some in Hs.
  split; [|split; [reflexivity|unfold s'; cbn [expiresAt]; lia]].
  apply getSession_Some. unfold sessionData in *.
  destruct (text_truthy (tab_session st)) eqn:Htab.
  - reflexivity.
  - cbn [tab_session set_local_session local_session].
    rewrite Htab. reflexivity.
Qed.

(** A "remember me" session, extended one minute after it was created. *)
Lemma extendSession_resets_witness :
  let st := createSession true 1704067200000 1704067200000
              (mkStorage None None None) in
  let s := {| authenticated := true; timestamp := 1704067200000;
              expiresAt := 1704067200000 + 30 * 24 * 60 * 60 * 1000 |} in
  let now := 1704067260000 in
  let s' := {| authenticated := authenticated s; timestamp := timestamp s;
               expiresAt := now + SESSION_DURATION |} in
  getSession (extendSession now st) = Some s' /\
  extendSession now st
  = (if text_truthy (tab_session st)
     then set_tab_session (Some (TextOf s')) st
     else set_local_session (Some (TextOf s')) st) /\
  (SESSION_DURATION < expiresAt s - now -> expiresAt s' < expiresAt s).
Proof.
  cbv zeta.
  apply (extendSession_resets
           (createSession true 1704067200000 1704067200000
              (mkStorage None None None))
           {| authenticated := true; timestamp := 1704067200000;
              expiresAt := 1704067200000 + 30 * 24 * 60 * 60 * 1000 |}
           1704067260000).
  reflexivity.
Defined.

End AuthTheory.

(** * Further properties of the content store *)

Module StorageExtra.
Import JS JSString BlogStorage Spec StringFacts.

(** *** Arrays of post objects *)

Lemma filter_arr_objects (f : json -> result bool) (g : gmap string json -> bool)
    (ps : list (gmap string json)) :
  (forall P, f (JObj P) = Ok (g P)) ->
  filter_arr f (JObj <$> ps) = Ok (JObj <$> List.filter g ps).
Proof.
  intros Hf. induction ps as [|P ps IH]; [reflexivity|].
  rewrite fmap_cons. cbn [filter_arr List.filter].
  rewrite Hf, IH. cbn [bind]. destruct (g P); reflexivity.
Qed.

Lemma find_arr_objects (f : json -> result bool) (g : gmap string json -> bool)
    (ps : list (gmap string json)) :
  (forall P, f (JObj P) = Ok (g P)) ->
  find_arr f (JObj <$> ps) = Ok (JObj <$> List.find g ps).
Proof.
  intros Hf. induction ps as [|P ps IH]; [reflexivity|].
  rewrite fmap_cons. cbn [find_arr List.find].
  rewrite Hf. cbn [bind]. destruct (g P); [reflexivity|exact IH].
Qed.

Lemma findIndex_none (f : json -> result bool) (l : list json) :
  Forall (fun p => f p = Ok false) l -> findIndex f l = Ok None.
Proof.
  induction 1 as [|p l Hp Hl IH]; [reflexivity|].
  cbn [findIndex]. rewrite Hp. cbn [bind]. rewrite IH. reflexivity.
Qed.

Lemma filter_arr_sublist f l r : filter_arr f l = Ok r -> sublist r l.
Proof.
  revert r. induction l as [|x l IH]; intros r H.
  - injection H as <-. constructor.
  - cbn [filter_arr] in H. destruct (f x) as [b|e]; [|discriminate].
    cbn [bind] in H. destruct (filter_arr f l) as [r'|e]; [|discriminate].
    cbn [bind] in H. injection H as <-.
    destruct b; [apply sublist_skip|apply sublist_cons]; apply IH; reflexivity.
Qed.

Lemma filter_arr_holds f l r :
  filter_arr f l = Ok r -> Forall (fun p => f p = Ok true) r.
Proof.
  revert r. induction l as [|x l IH]; intros r H.
  - injection H as <-. constructor.
  - cbn [filter_arr] in H. destruct (f x) as [b|e] eqn:Hx; [|discriminate].
    cbn [bind] in H. destruct (filter_arr f l) as [r'|e]; [|discriminate].
    cbn [bind] in H. injection H as <-.
    destruct b; [constructor; [exact Hx|]|]; apply IH; reflexivity.
Qed.

Lemma unique_ids_sublist l r : sublist r l -> unique_ids l -> unique_ids r.
Proof.
  unfold unique_ids. intros Hsub H.
  exact (sublist_NoDup _ _ H (fmap_sublist post_id _ _ Hsub)).
Qed.

Lemma filter_length_all {A : Type} (g : A -> bool) (l : list A) :
  length (List.filter g l) = length l -> List.filter g l = l.
Proof.
  induction l as [|x l IH]; [reflexivity|]. cbn [List.filter].
  destruct (g x); cbn [length]; intros H.
  - f_equal. apply IH. lia.
  - pose proof (List.filter_length_le g l). lia.
Qed.

End StorageExtra.

(** * Saving, deleting and looking up posts *)

Module StorageProps.
Import JS JSString BlogStorage Spec StringFacts StorageTheory StorageExtra.

Lemma id_isnt (id : value) (P : gmap string json) :
  bind (get_prop (Some (JObj P)) "id")
       (fun pid => Ok (negb (strict_eq pid id)))
  = Ok (negb (strict_eq (P !! "id") id)).
Proof. reflexivity. Qed.

Lemma deletePost_filter (ps : list (gmap string json)) id st :
  getAllPosts st = Ok (JArr (JObj <$> ps)) ->
  deletePost id st
  = if (length (without_id id ps) =? length ps)%nat then (st, false)
    else (savePosts (JArr (JObj <$> without_id id ps)) st, true).
Proof.
  intros Hget. unfold deletePost. rewrite Hget. cbn [bind as_array].
  rewrite (filter_arr_objects _ (fun P => negb (strict_eq (P !! "id") id)))
    by (intros P; apply id_isnt).
  cbn [bind]. rewrite !length_fmap. fold (without_id id ps).
  destruct (length (without_id id ps) =? length ps)%nat; reflexivity.
Qed.

(** X1.  [deletePost] with an id no stored post carries returns false and
    leaves the store as it is. *)
Theorem deletePost_missing (ps : list (gmap string json)) id st :
  getAllPosts st = Ok (JArr (JObj <$> ps)) ->
  Forall (fun P => strict_eq (P !! "id") id = false) ps ->
  deletePost id st = (st, false).
Proof.
  intros Hget Hnone. rewrite (deletePost_filter ps id st Hget).
  replace (without_id id ps) with ps; [rewrite Nat.eqb_refl; reflexivity|].
  clear Hget. unfold without_id.
  induction Hnone as [|P ps HP Hps IH]; [reflexivity|].
  cbn [List.filter]. rewrite HP. cbn [negb]. f_equal. exact IH.
Qed.

Lemma deletePost_missing_witness :
  deletePost (Some (JStr "no-such-id")) hello_store = (hello_store, false).
Proof.
  apply (deletePost_missing [hello_post]).
  - reflexivity.
  - repeat constructor.
Defined.

(** X2.  [deletePost] with an id some stored post carries returns true and
    stores the collection without every post of that id, the other posts
    staying in their order; afterwards no stored post carries the id. *)
Theorem deletePost_existing (ps : list (gmap string json)) id st :
  getAllPosts st = Ok (JArr (JObj <$> ps)) ->
  Exists (fun P => strict_eq (P !! "id") id = true) ps ->
  deletePost id st = (savePosts (JArr (JObj <$> without_id id ps)) st, true) /\
  collection (fst (deletePost id st)) = JObj <$> without_id id ps /\
  Forall (fun P => strict_eq (P !! "id") id = false) (without_id id ps).
Proof.
  intros Hget Hex. rewrite (deletePost_filter ps id st Hget).
  assert (Hlen : (length (without_id id ps) =? length ps)%nat = false).
  { apply Nat.eqb_neq. intros Hlen. apply filter_length_all in Hlen.
    apply Exists_exists in Hex as (P & HP & Hid).
    apply list_elem_of_In in HP. fold (without_id id ps) in Hlen.
    rewrite <- Hlen in HP. apply filter_In in HP as [_ HP].
    rewrite Hid in HP. discriminate. }
  rewrite Hlen. split; [reflexivity|split; [reflexivity|]].
  apply Forall_forall. intros P HP. apply list_elem_of_In, filter_In in HP as [_ HP].
  apply negb_true_iff in HP. exact HP.
Qed.

Lemma deletePost_existing_witness :
  let id := Some (JStr "hello-2024-01-01") in
  deletePost id hello_store
  = (savePosts (JArr (JObj <$> without_id id [hello_post])) hello_store, true) /\
  collection (fst (deletePost id hello_store)) = JObj <$> without_id id [hello_post] /\
  Forall (fun P => strict_eq (P !! "id") id = false) (without_id id [hello_post]).
Proof.
  apply (deletePost_existing [hello_post]).
  - reflexivity.
  - constructor. reflexivity.
Defined.

(** X3.  [deletePost] keeps the ids unique, whatever the store holds: when
    no two posts share an id before the call, none do after it. *)
Theorem deletePost_unique_ids id st :
  unique_ids (collection st) -> unique_ids (collection (fst (deletePost id st))).
Proof.
  intros Huniq. unfold deletePost.
  destruct (getAllPosts st) as [all|e] eqn:Hget; [|exact Huniq].
  cbn [bind]. destruct all as [| | | |l|]; try exact Huniq.
  cbn [as_array bind].
  destruct (filter_arr _ l) as [r|e] eqn:Hfilter; [|exact Huniq].
  cbn [bind]. destruct (length r =? length l)%nat; [exact Huniq|].
  cbn [fst]. rewrite collection_saved.
  apply (unique_ids_sublist l r (filter_arr_sublist _ _ _ Hfilter)).
  unfold collection in Huniq. rewrite Hget in Huniq. exact Huniq.
Qed.

Lemma deletePost_unique_ids_witness :
  unique_ids (collection shelf_store) /\
  collection (fst (deletePost (Some (JStr "notes-2024-01-02")) shelf_store))
  = [JObj live_post; JObj recent_post] /\
  unique_ids (collection (fst (deletePost (Some (JStr "notes-2024-01-02")) shelf_store))).
Proof.
  assert (H : unique_ids (collection shelf_store)).
  { unfold unique_ids. change (post_id <$> collection shelf_store)
      with [live_post !! "id"; draft_post !! "id"; recent_post !! "id"].
    vm_compute.
    repeat (apply NoDup_cons; split;
            [rewrite ?not_elem_of_cons; repeat split;
             try (intros [=]); apply not_elem_of_nil|]).
    apply NoDup_nil_2. }
  split; [exact H|]. split; [reflexivity|].
  apply (deletePost_unique_ids (Some (JStr "notes-2024-01-02")) shelf_store H).
Defined.

(** *** Saving *)

Lemma get_field_Some (o : object) k v :
  get_field o k = Some v -> o !! k = Some (Some v).
Proof.
  unfold get_field. destruct (o !! k) as [[w|]|]; simpl; congruence.
Qed.

(** X4.  An update touches one post: when [savePost] is given a record
    whose id is that of a stored post, the collection keeps its length,
    every other post stays as it was, the updated post keeps its id, and
    ids that were unique stay unique. *)
Theorem savePost_update_frame (ps : list (gmap string json)) i P pid
    (postData : object) now st :
  getAllPosts st = Ok (JArr (JObj <$> ps)) ->
  first_with_id ps i P pid ->
  get_field postData "id" = Some (JStr pid) ->
  exists st' post,
    savePost postData now st = Ok (st', post) /\
    length (collection st') = length ps /\
    (forall j, j <> i -> collection st' !! j = (JObj <$> ps) !! j) /\
    field_at st' i "id" = Some (JStr pid) /\
    (unique_ids (collection st) -> unique_ids (collection st')).
Proof.
  intros Hget Hfirst Hid.
  pose proof Hfirst as (Hi & HPid & _).
  pose proof (lookup_lt_Some _ _ _ Hi) as Hlt.
  set (Q := serializable (merged P postData now)).
  assert (HQ : Q !! "id" = Some (JStr pid)).
  { unfold Q. rewrite serializable_merged by discriminate.
    rewrite (get_field_Some _ _ _ Hid). reflexivity. }
  eexists _, _. split; [apply (savePost_update ps i P pid); assumption|].
  fold Q. rewrite collection_saved.
  split; [rewrite length_fmap, length_insert; reflexivity|].
  split; [intros j Hj; rewrite !list_lookup_fmap, list_lookup_insert_ne by congruence;
          reflexivity|].
  split; [erewrite field_at_saved by (apply list_lookup_insert_eq; exact Hlt);
          exact HQ|].
  unfold unique_ids, collection. rewrite Hget.
  rewrite <- !list_fmap_compose, list_fmap_insert. cbn [compose post_id].
  rewrite HQ, <- HPid.
  rewrite (list_insert_id ((post_id ∘ JObj) <$> ps) i (P !! "id"));
    [auto|].
  rewrite list_lookup_fmap, Hi. reflexivity.
Qed.

Lemma savePost_update_frame_witness :
  let postData : object :=
    {[ "id" := Some (JStr "hello-2024-01-01");
       "title" := Some (JStr "New Title") ]} in
  exists st' post,
    savePost postData 1704067260000 hello_store = Ok (st', post) /\
    length (collection st') = length [hello_post] /\
    (forall j, j <> 0%nat -> collection st' !! j = (JObj <$> [hello_post]) !! j) /\
    field_at st' 0 "id" = Some (JStr "hello-2024-01-01") /\
    (unique_ids (collection hello_store) -> unique_ids (collection st')).
Proof.
  cbv zeta.
  apply (savePost_update_frame [hello_post] 0 hello_post "hello-2024-01-01").
  - reflexivity.
  - split; [reflexivity|split; [reflexivity|intros j Q Hj; lia]].
  - vm_compute. reflexivity.
Defined.

Lemma id_is (id : value) (P : gmap string json) :
  bind (get_prop (Some (JObj P)) "id")
       (fun pid => Ok (strict_eq pid id))
  = Ok (strict_eq (P !! "id") id).
Proof. reflexivity. Qed.

Lemma findIndex_no_match (ps : list (gmap string json)) (id : value) :
  Forall (fun P => strict_eq (P !! "id") id = false) ps ->
  findIndex (fun p => bind (get_prop (Some p) "id")
                        (fun pid => Ok (strict_eq pid id))) (JObj <$> ps)
  = Ok None.
Proof.
  intros H. apply findIndex_none, Forall_fmap.
  eapply Forall_impl; [exact H|]. intros P HP. cbn [compose].
  rewrite id_is, HP. reflexivity.
Qed.

(** The post the create branch builds. *)
Lemma savePost_create_eq (ps : list (gmap string json)) (postData : object)
    title date content now st :
  getAllPosts st = Ok (JArr (JObj <$> ps)) ->
  Forall (fun P => strict_eq (P !! "id") (get_field postData "id") = false) ps ->
  get_field postData "title" = Some (JStr title) ->
  isoDate now = Ok date ->
  content_of postData = Ok content ->
  let post : object :=
    <["excerpt" := Some (or_else (get_field postData "excerpt")
                                 (JStr (generateExcerpt content)))]>
      (<["readTime" := Some (JNum (calculateReadTime content))]>
         (<["updatedAt" := Some (JNum now)]>
            (<["createdAt" := Some (JNum now)]>
               (<["slug" := Some (JStr (generateSlug title))]>
                  (<["id" := Some (JStr (generateSlug title ++ "-" ++ date))]>
                     postData))))) in
  savePost postData now st
  = Ok (savePosts (JArr (JObj <$> (ps ++ [serializable post])%list)) st, post).
Proof.
  intros Hget Hnone Htitle Hdate Hcontent post. unfold savePost.
  rewrite Hget. cbn [bind as_array].
  rewrite (findIndex_no_match ps _ Hnone). cbn [bind].
  unfold generateId, generateSlug_of. rewrite Htitle.
  change (as_string (Some (JStr title))) with (Ok (A:=string) title).
  cbn [bind]. rewrite Hdate. cbn [bind].
  unfold content_of in Hcontent. rewrite Hcontent. cbn [bind try_catch].
  rewrite fmap_app. reflexivity.
Qed.

(** X5.  When the stored collection is an array of post objects and the
    time of the save is a date in range, a record that matches no stored
    post, has a string as its title and a string or a falsy value as its
    content is appended as a new post:
    the stored posts stay as they were, and the new post carries the id
    [slug-date] built from its title and the day of the save, the slug of
    its title, the time of the save as [createdAt] and [updatedAt] and the
    read time of its content; every other field is the record's. *)
Theorem savePost_create (ps : list (gmap string json)) (postData : object)
    title date content now st :
  getAllPosts st = Ok (JArr (JObj <$> ps)) ->
  Forall (fun P => strict_eq (P !! "id") (get_field postData "id") = false) ps ->
  get_field postData "title" = Some (JStr title) ->
  isoDate now = Ok date ->
  content_of postData = Ok content ->
  exists st' post,
    savePost postData now st = Ok (st', post) /\
    collection st' = ((JObj <$> ps) ++ [JObj (serializable post)])%list /\
    get_field post "id" = Some (JStr (generateSlug title ++ "-" ++ date)) /\
    get_field post "slug" = Some (JStr (generateSlug title)) /\
    get_field post "createdAt" = Some (JNum now) /\
    get_field post "updatedAt" = Some (JNum now) /\
    get_field post "readTime" = Some (JNum (calculateReadTime content)) /\
    (forall k, k ∉ ["id"; "slug"; "createdAt"; "updatedAt"; "readTime"; "excerpt"] ->
               post !! k = postData !! k).
Proof.
  intros Hget Hnone Htitle Hdate Hcontent.
  eexists _, _.
  split; [apply (savePost_create_eq ps postData title date content); assumption|].
  rewrite collection_saved, fmap_app. split; [reflexivity|].
  unfold get_field.
  repeat (split; [by simplify_map_eq|]).
  intros k Hk. rewrite !not_elem_of_cons in Hk.
  destruct Hk as (? & ? & ? & ? & ? & ? & _).
  by rewrite !lookup_insert_ne by congruence.
Qed.

Lemma savePost_create_witness :
  let postData : object := {[ "title" := Some (JStr "Second Post") ]} in
  let now := 1704067260000 in
  exists st' post,
    savePost postData now hello_store = Ok (st', post) /\
    collection st' = ((JObj <$> [hello_post]) ++ [JObj (serializable post)])%list /\
    get_field post "id" = Some (JStr (generateSlug "Second Post" ++ "-" ++ "2024-01-01")) /\
    get_field post "slug" = Some (JStr (generateSlug "Second Post")) /\
    get_field post "createdAt" = Some (JNum now) /\
    get_field post "updatedAt" = Some (JNum now) /\
    get_field post "readTime" = Some (JNum (calculateReadTime "")) /\
    (forall k, k ∉ ["id"; "slug"; "createdAt"; "updatedAt"; "readTime"; "excerpt"] ->
               post !! k = postData !! k).
Proof.
  cbv zeta.
  apply (savePost_create [hello_post] _ "Second Post" "2024-01-01" "").
  - reflexivity.
  - repeat constructor.
  - vm_compute. reflexivity.
  - vm_compute. reflexivity.
  - vm_compute. reflexivity.
Defined.

(** X6.  A record that matches no stored post and whose title is not a
    string is refused with a [TypeError]; nothing is stored. *)
Theorem savePost_needs_title (ps : list (gmap string json)) (postData : object)
    now st :
  getAllPosts st = Ok (JArr (JObj <$> ps)) ->
  Forall (fun P => strict_eq (P !! "id") (get_field postData "id") = false) ps ->
  (forall title, get_field postData "title" <> Some (JStr title)) ->
  savePost postData now st = Throw TypeError.
Proof.
  intros Hget Hnone Htitle. unfold savePost.
  rewrite Hget. cbn [bind as_array].
  rewrite (findIndex_no_match ps _ Hnone). cbn [bind].
  unfold generateId, generateSlug_of.
  destruct (get_field postData "title") as [[| | |t| |]|]; try reflexivity.
  destruct (Htitle t). reflexivity.
Qed.

Lemma savePost_needs_title_witness :
  savePost {[ "content" := Some (JStr "<p>text</p>") ]} 1704067260000 hello_store
  = Throw TypeError.
Proof.
  apply (savePost_needs_title [hello_post]).
  - reflexivity.
  - repeat constructor.
  - intros title. vm_compute. discriminate.
Defined.

(** *** Looking up *)

Lemma id_or_slug_is_obj (id : value) (P : gmap string json) :
  id_or_slug_is id (JObj P)
  = Ok (strict_eq (P !! "id") id || strict_eq (P !! "slug") id).
Proof.
  unfold id_or_slug_is. cbn [get_prop bind].
  destruct (strict_eq (P !! "id") id); reflexivity.
Qed.

Lemma find_first {A : Type} (g : A -> bool) (l : list A) i x :
  l !! i = Some x -> g x = true ->
  (forall j y, (j < i)%nat -> l !! j = Some y -> g y = false) ->
  List.find g l = Some x.
Proof.
  revert i. induction l as [|y l IH]; intros i Hi Hx Hbefore.
  - rewrite lookup_nil in Hi. discriminate.
  - cbn [List.find]. destruct i as [|i].
    + injection Hi as ->. rewrite Hx. reflexivity.
    + rewrite (Hbefore 0%nat y) by (lia || reflexivity).
      apply (IH i Hi Hx). intros j z Hj Hz. apply (Hbefore (S j) z); [lia|exact Hz].
Qed.

Lemma getPostById_find (ps : list (gmap string json)) id st :
  getAllPosts st = Ok (JArr (JObj <$> ps)) ->
  getPostById id st
  = Ok (or_else
          (JObj <$> List.find (fun P => strict_eq (P !! "id") id
                                        || strict_eq (P !! "slug") id) ps)
          JNull).
Proof.
  intros Hget. unfold getPostById. rewrite Hget. cbn [bind as_array].
  rewrite (find_arr_objects _ _ ps (id_or_slug_is_obj id)). reflexivity.
Qed.

(** X7.  Read after write: after [savePost] has updated the post of id
    [pid], [getPostById(pid)] returns the post as it was stored, provided
    no post before it in the collection has [pid] as its slug. *)
Theorem getPostById_after_update (ps : list (gmap string json)) i P pid
    (postData : object) now st :
  getAllPosts st = Ok (JArr (JObj <$> ps)) ->
  first_with_id ps i P pid ->
  get_field postData "id" = Some (JStr pid) ->
  (forall j Q, (j < i)%nat -> ps !! j = Some Q -> Q !! "slug" <> Some (JStr pid)) ->
  exists st' post,
    savePost postData now st = Ok (st', post) /\
    getPostById (Some (JStr pid)) st' = Ok (JObj (serializable post)) /\
    collection st' !! i = Some (JObj (serializable post)).
Proof.
  intros Hget Hfirst Hid Hslug.
  pose proof Hfirst as (Hi & HPid & Hbefore).
  pose proof (lookup_lt_Some _ _ _ Hi) as Hlt.
  set (Q := serializable (merged P postData now)).
  assert (HQ : Q !! "id" = Some (JStr pid)).
  { unfold Q. rewrite serializable_merged by discriminate.
    rewrite (get_field_Some _ _ _ Hid). reflexivity. }
  eexists _, _. split; [apply (savePost_update ps i P pid); assumption|].
  fold Q. split.
  - rewrite (getPostById_find (<[i := Q]> ps)) by apply getAllPosts_saved.
    rewrite (find_first _ _ i Q).
    + reflexivity.
    + apply list_lookup_insert_eq. exact Hlt.
    + rewrite HQ. cbn [strict_eq]. rewrite String.eqb_refl. reflexivity.
    + intros j R Hj HR. rewrite list_lookup_insert_ne in HR by lia.
      rewrite !strict_eq_str_false; [reflexivity| |]; eauto.
  - rewrite collection_saved, list_lookup_fmap, list_lookup_insert_eq by exact Hlt.
    reflexivity.
Qed.

Lemma getPostById_after_update_witness :
  let postData : object :=
    {[ "id" := Some (JStr "hello-2024-01-01");
       "title" := Some (JStr "New Title") ]} in
  exists st' post,
    savePost postData 1704067260000 hello_store = Ok (st', post) /\
    getPostById (Some (JStr "hello-2024-01-01")) st' = Ok (JObj (serializable post)) /\
    collection st' !! 0%nat = Some (JObj (serializable post)).
Proof.
  cbv zeta.
  apply (getPostById_after_update [hello_post] 0 hello_post "hello-2024-01-01").
  - reflexivity.
  - split; [reflexivity|split; [reflexivity|intros j Q Hj; lia]].
  - vm_compute. reflexivity.
  - intros j Q Hj. lia.
Defined.

Lemma find_key_none (ps : list (gmap string json)) key :
  Forall (fun P => P !! "id" <> Some (JStr key) /\ P !! "slug" <> Some (JStr key)) ps ->
  List.find (fun P => strict_eq (P !! "id") (Some (JStr key))
                      || strict_eq (P !! "slug") (Some (JStr key))) ps
  = None.
Proof.
  induction 1 as [|P ps [H1 H2] Hps IH]; [reflexivity|].
  cbn [List.find]. rewrite !strict_eq_str_false by assumption. exact IH.
Qed.

(** X8.  [getPostById] looks a post up by id or by slug; when the stored
    collection is an array of post objects none of which has the string key
    as its id or as its slug, it returns [null]. *)
Theorem getPostById_missing (ps : list (gmap string json)) key st :
  getAllPosts st = Ok (JArr (JObj <$> ps)) ->
  Forall (fun P => P !! "id" <> Some (JStr key) /\ P !! "slug" <> Some (JStr key)) ps ->
  getPostById (Some (JStr key)) st = Ok JNull.
Proof.
  intros Hget Hnone.
  rewrite (getPostById_find ps _ st Hget), (find_key_none ps key Hnone).
  reflexivity.
Qed.

Lemma getPostById_missing_witness :
  getPostById (Some (JStr "no-such-post")) hello_store = Ok JNull.
Proof.
  apply (getPostById_missing [hello_post]).
  - reflexivity.
  - repeat constructor; vm_compute; discriminate.
Defined.

End StorageProps.

(** * The read paths and the pages that use them *)

Module ReadProps.
Import JS JSString BlogStorage Spec StringFacts StorageTheory StorageExtra.

(** *** The stable sort *)

Lemma insert_desc_perm x l : Permutation (insert_desc x l) (x :: l).
Proof.
  induction l as [|y l IH]; [reflexivity|]. cbn [insert_desc].
  destruct (fst y >? fst x); [|reflexivity].
  rewrite IH. apply perm_swap.
Qed.

Lemma sorted_perm (l : list (Z * json)) : Permutation (foldr insert_desc [] l) l.
Proof.
  induction l as [|x l IH]; [reflexivity|]. cbn [foldr].
  rewrite insert_desc_perm, IH. reflexivity.
Qed.

Lemma insert_desc_sorted x l :
  StronglySorted keys_desc l -> StronglySorted keys_desc (insert_desc x l).
Proof.
  induction 1 as [|y l Hl IH Hy]; [repeat constructor|].
  cbn [insert_desc]. destruct (fst y >? fst x) eqn:E.
  - constructor; [exact IH|].
    rewrite insert_desc_perm. constructor; [|exact Hy].
    unfold keys_desc. lia.
  - constructor; [constructor; assumption|].
    constructor; [unfold keys_desc; lia|].
    eapply Forall_impl; [exact Hy|]. unfold keys_desc. intros z Hz. lia.
Qed.

Lemma sorted_sorted (l : list (Z * json)) :
  StronglySorted keys_desc (foldr insert_desc [] l).
Proof.
  induction l as [|x l IH]; [constructor|]. apply insert_desc_sorted, IH.
Qed.

Lemma keyed_spec key (l : list json) keyed :
  mapM (fun post => k ← number_at key post; Some (k, post)) l = Some keyed ->
  snd <$> keyed = l /\
  Forall (fun kp => number_at key (snd kp) = Some (fst kp)) keyed.
Proof.
  rewrite mapM_Some. induction 1 as [|p kp l keyed Hp Hl [IH1 IH2]].
  - split; constructor.
  - destruct (number_at key p) as [k|] eqn:Hk; [|discriminate].
    injection Hp as <-. cbn [fmap list_fmap snd].
    split; [f_equal; exact IH1|constructor; [exact Hk|exact IH2]].
Qed.

Lemma sort_desc_perm key l l' : sort_desc key l = Some l' -> Permutation l' l.
Proof.
  unfold sort_desc. destruct l as [|p [|q l]]; try (intros [= <-]; reflexivity).
  destruct (mapM _ _) as [keyed|] eqn:Hk; [|discriminate].
  intros [= <-]. apply keyed_spec in Hk as [Hsnd _].
  rewrite <- Hsnd. apply fmap_Permutation, sorted_perm.
Qed.

Lemma StronglySorted_fmap {A B : Type} (R : A -> A -> Prop) (S : B -> B -> Prop)
    (f : A -> B) (l : list A) :
  (forall a b, a ∈ l -> b ∈ l -> R a b -> S (f a) (f b)) ->
  StronglySorted R l -> StronglySorted S (f <$> l).
Proof.
  intros Hf Hl. induction Hl as [|x l Hl IH Hx]; [constructor|].
  cbn [fmap list_fmap]. constructor.
  - apply IH. intros a b Ha Hb. apply Hf; right; assumption.
  - apply Forall_fmap, Forall_forall. intros y Hy. cbn [compose].
    apply Hf; [left|right; exact Hy|].
    rewrite Forall_forall in Hx. apply Hx, Hy.
Qed.

Lemma sort_desc_sorted key l :
  Forall (fun p => is_Some (number_at key p)) l ->
  exists l', sort_desc key l = Some l' /\
             Permutation l' l /\ StronglySorted (not_older key) l'.
Proof.
  intros Hnum.
  assert (exists keyed,
             mapM (fun post => k ← number_at key post; Some (k, post)) l
             = Some keyed) as [keyed Hk].
  { apply mapM_is_Some. eapply Forall_impl; [exact Hnum|].
    intros p [k Hp]. exists (k, p). cbv beta. rewrite Hp. reflexivity. }
  pose proof (keyed_spec key l keyed Hk) as [Hsnd Hkeys].
  assert (Hsorted : StronglySorted (not_older key)
                      (snd <$> foldr insert_desc [] keyed)).
  { apply (StronglySorted_fmap keys_desc); [|apply sorted_sorted].
    intros a b Ha Hb Hab. rewrite sorted_perm in Ha, Hb.
    rewrite Forall_forall in Hkeys.
    exists (fst a), (fst b). auto. }
  assert (Hperm : Permutation (snd <$> foldr insert_desc [] keyed) l)
    by (rewrite <- Hsnd; apply fmap_Permutation, sorted_perm).
  unfold sort_desc. destruct l as [|p [|q l]].
  - exists []. repeat split; constructor.
  - exists [p]. repeat split; repeat constructor.
  - rewrite Hk. eauto.
Qed.

Lemma published_is_obj flag (P : gmap string json) :
  published_is flag (JObj P)
  = Ok (strict_eq (P !! "published") (Some (JBool flag))).
Proof. reflexivity. Qed.

Lemma filter_flag (ps : list (gmap string json)) flag :
  filter_arr (published_is flag) (JObj <$> ps) = Ok (JObj <$> with_flag flag ps).
Proof. apply filter_arr_objects, published_is_obj. Qed.

Lemma number_at_obj key (P : gmap string json) n :
  P !! key = Some (JNum n) -> number_at key (JObj P) = Some n.
Proof. intros H. cbn [number_at]. rewrite H. reflexivity. Qed.

(** X9.  [getPublishedPosts] returns the stored posts whose [published] is
    [true], each once, newest first: every post of the result was created
    no earlier than the posts after it (the published posts are required
    to hold a number as [createdAt]). *)
Theorem getPublishedPosts_sorted (ps : list (gmap string json)) st :
  getAllPosts st = Ok (JArr (JObj <$> ps)) ->
  Forall (fun P => exists n, P !! "createdAt" = Some (JNum n)) (with_flag true ps) ->
  exists l,
    getPublishedPosts st = Ok (Some l) /\
    Permutation l (JObj <$> with_flag true ps) /\
    StronglySorted (not_older "createdAt") l.
Proof.
  intros Hget Hnum. unfold getPublishedPosts.
  rewrite Hget. cbn [bind as_array]. rewrite filter_flag. cbn [bind].
  destruct (sort_desc_sorted "createdAt" (JObj <$> with_flag true ps))
    as (l & Hl & Hperm & Hsorted).
  - apply Forall_fmap. eapply Forall_impl; [exact Hnum|].
    intros P [n Hn]. exists n. apply number_at_obj, Hn.
  - exists l. rewrite Hl. auto.
Qed.

Lemma getPublishedPosts_sorted_witness :
  getPublishedPosts shelf_store = Ok (Some [JObj recent_post; JObj live_post]) /\
  exists l,
    getPublishedPosts shelf_store = Ok (Some l) /\
    Permutation l (JObj <$> with_flag true [live_post; draft_post; recent_post]) /\
    StronglySorted (not_older "createdAt") l.
Proof.
  split; [vm_compute; reflexivity|].
  apply (getPublishedPosts_sorted [live_post; draft_post; recent_post] shelf_store).
  - reflexivity.
  - repeat constructor.
    + exists 1704067200000. reflexivity.
    + exists 1704240000000. reflexivity.
Defined.

Lemma published_is_inv flag p :
  published_is flag p = Ok true -> has_flag flag p.
Proof.
  unfold published_is.
  destruct p as [| | |s|l|o]; cbn [get_prop bind]; try discriminate.
  intros [= H]. exists o. split; [reflexivity|].
  destruct (o !! "published") as [[|b| | | |]|]; try discriminate.
  apply Bool.eqb_prop in H. congruence.
Qed.

(** X10.  When [getPublishedPosts] returns posts that are sorted by
    numbers (every returned post holds a number as [createdAt], or fewer
    than two posts are returned), each of them is an object whose
    [published] is the boolean [true]; likewise each post [getDrafts]
    returns, sorted by [updatedAt], has [published] equal to the boolean
    [false]: a post whose [published] is missing or is not a boolean is in
    neither list. *)
Theorem listed_posts_flag flag st l :
  posts_with_flag flag st = Ok (Some l) -> Forall (has_flag flag) l.
Proof.
  unfold posts_with_flag, getPublishedPosts, getDrafts. intros H.
  assert (exists key filtered all,
             filter_arr (published_is flag) all = Ok filtered /\
             sort_desc key filtered = Some l) as (key & filtered & all & Hf & Hs).
  { destruct flag;
      (destruct (getAllPosts st) as [v|]; [|discriminate];
       cbn [bind] in H; destruct (as_array v) as [all|]; [|discriminate];
       cbn [bind] in H;
       destruct (filter_arr _ all) as [filtered|] eqn:Hf; [|discriminate];
       cbn [bind] in H; injection H as H; eauto). }
  apply sort_desc_perm in Hs. rewrite Hs.
  eapply Forall_impl; [apply (filter_arr_holds _ _ _ Hf)|].
  intros p. apply published_is_inv.
Qed.

Lemma listed_posts_flag_witness :
  posts_with_flag true plain_store = Ok (Some [JObj recent_post]) /\
  posts_with_flag false plain_store = Ok (Some [JObj draft_post]) /\
  Forall (has_flag true) [JObj recent_post] /\
  Forall (has_flag false) [JObj draft_post].
Proof.
  assert (Ht : posts_with_flag true plain_store = Ok (Some [JObj recent_post]))
    by (vm_compute; reflexivity).
  assert (Hf : posts_with_flag false plain_store = Ok (Some [JObj draft_post]))
    by (vm_compute; reflexivity).
  split; [exact Ht|]. split; [exact Hf|]. split.
  - apply (listed_posts_flag true plain_store _ Ht).
  - apply (listed_posts_flag false plain_store _ Hf).
Defined.

(** *** The pages *)

Lemma loadFromFallback_seed seed st :
  seed <> [] ->
  loadFromFallback (Document (Some seed)) st = (savePosts (JArr seed) st, seed).
Proof. destruct seed; [contradiction|reflexivity]. Qed.

(** X11.  When the store holds no post whose [published] is [true] (it is
    empty, or holds drafts only) and the data file has posts, [loadPosts]
    of the listing page replaces the whole stored collection by the posts
    of the data file: the stored drafts are gone. *)
Theorem loadPosts_replaces_store (ps : list (gmap string json)) seed st :
  getAllPosts st = Ok (JArr (JObj <$> ps)) ->
  with_flag true ps = [] ->
  seed <> [] ->
  exists shown,
    BlogListing.loadPosts (Document (Some seed)) st
    = Some (savePosts (JArr seed) st, shown) /\
    collection (savePosts (JArr seed) st) = seed.
Proof.
  intros Hget Hnone Hseed. unfold BlogListing.loadPosts, getPublishedPosts.
  rewrite Hget. cbn [bind as_array]. rewrite filter_flag, Hnone.
  cbn [bind fmap list_fmap sort_desc length Nat.eqb].
  rewrite (loadFromFallback_seed seed st Hseed).
  destruct (filter_arr _ _); eauto.
Qed.

Lemma loadPosts_replaces_store_witness :
  exists shown,
    BlogListing.loadPosts (Document (Some [JObj live_post])) draft_store
    = Some (savePosts (JArr [JObj live_post]) draft_store, shown) /\
    collection (savePosts (JArr [JObj live_post]) draft_store) = [JObj live_post].
Proof.
  apply (loadPosts_replaces_store [draft_post]).
  - reflexivity.
  - reflexivity.
  - discriminate.
Defined.

Lemma hide_unpublished_truthy post :
  truthy (BlogPost.hide_unpublished post) = true ->
  exists p flag, BlogPost.hide_unpublished post = Some p /\
                 get_prop (Some p) "published" = Ok flag /\ truthy flag = true.
Proof.
  unfold BlogPost.hide_unpublished.
  destruct (truthy post) eqn:Hpost; [|congruence].
  destruct post as [p|]; [|discriminate].
  destruct (get_prop (Some p) "published") as [flag|] eqn:Hflag; [|discriminate].
  destruct (truthy flag) eqn:Ht; [|discriminate].
  intros _. eauto.
Qed.

(** X12.  The page of one post never shows a draft: whatever the store
    and the data file hold, when [loadPost] leaves a post to render, its
    [published] is truthy. *)
Theorem loadPost_only_published postId fetched st :
  truthy (snd (BlogPost.loadPost postId fetched st)) = true ->
  exists p flag,
    snd (BlogPost.loadPost postId fetched st) = Some p /\
    get_prop (Some p) "published" = Ok flag /\ truthy flag = true.
Proof.
  unfold BlogPost.loadPost.
  destruct (getPostById _ st) as [post|]; [|discriminate].
  destruct (negb (truthy (Some post))).
  - destruct (loadFromFallback fetched st) as [st' posts].
    destruct (find_arr _ posts) as [found|]; [|discriminate].
    apply hide_unpublished_truthy.
  - apply hide_unpublished_truthy.
Qed.

Lemma loadPost_only_published_witness :
  exists p flag,
    snd (BlogPost.loadPost "hello" Unreadable live_store) = Some p /\
    get_prop (Some p) "published" = Ok flag /\ truthy flag = true.
Proof.
  apply (loadPost_only_published "hello" Unreadable live_store).
  vm_compute. reflexivity.
Defined.

(** X13.  Opening the page of a post that is not in the store (no stored
    post has the key as its id or slug) while the data file has posts
    replaces the whole stored collection by the posts of the data file. *)
Theorem loadPost_replaces_store (ps : list (gmap string json)) postId seed st :
  getAllPosts st = Ok (JArr (JObj <$> ps)) ->
  Forall (fun P => P !! "id" <> Some (JStr postId) /\
                   P !! "slug" <> Some (JStr postId)) ps ->
  seed <> [] ->
  fst (BlogPost.loadPost postId (Document (Some seed)) st) = savePosts (JArr seed) st /\
  collection (savePosts (JArr seed) st) = seed.
Proof.
  intros Hget Hnone Hseed. split; [|reflexivity].
  unfold BlogPost.loadPost.
  rewrite (StorageProps.getPostById_find ps _ st Hget),
    (StorageProps.find_key_none ps postId Hnone).
  cbn [fmap option_fmap option_map or_else].
  cbn [truthy negb]. rewrite (loadFromFallback_seed seed st Hseed).
  destruct (find_arr _ _); reflexivity.
Qed.

Lemma loadPost_replaces_store_witness :
  fst (BlogPost.loadPost "no-such-post" (Document (Some [JObj live_post])) draft_store)
  = savePosts (JArr [JObj live_post]) draft_store /\
  collection (savePosts (JArr [JObj live_post]) draft_store) = [JObj live_post].
Proof.
  apply (loadPost_replaces_store [draft_post]).
  - reflexivity.
  - repeat constructor; vm_compute; discriminate.
  - discriminate.
Defined.

End ReadProps.

(** * The derived fields: slug, excerpt, read time *)

Module TextProps.
Import JS JSString BlogStorage Spec StringFacts SlugTheory.

(** X14.  A slug is safe in a URL: [generateSlug] returns only the
    characters [a-z], [0-9], [_] and [-], and never two hyphens in a row. *)
Theorem generateSlug_url_safe (title : string) :
  Forall (fun c => slug_ok c = true) (chars (generateSlug title)) /\
  single_hyphens (chars (generateSlug title)) = true.
Proof.
  rewrite generateSlug_unfold, chars_str.
  destruct (slug_chars_normal title) as (Hok & Hsingle & _). auto.
Qed.

(** *** Stripping tags *)

Lemma strip_tags_sublist s : sublist (strip_tags s) s /\ sublist (in_tag s) s.
Proof.
  induction s as [|c s [IH1 IH2]]; [split; constructor|].
  cbn [strip_tags in_tag]. split.
  - destruct (is_lt c && existsb is_gt s);
      [apply sublist_cons, IH2|apply sublist_skip, IH1].
  - destruct (is_gt c); apply sublist_cons; assumption.
Qed.

Lemma existsb_sublist (f : ascii -> bool) r l :
  sublist r l -> existsb f l = false -> existsb f r = false.
Proof.
  induction 1 as [|c r l Hsub IH|c r l Hsub IH]; cbn [existsb]; intros H.
  - reflexivity.
  - apply orb_false_iff in H as [-> H]. exact (IH H).
  - apply orb_false_iff in H as [_ H]. exact (IH H).
Qed.

Lemma tag_free_sublist r l : sublist r l -> tag_free l = true -> tag_free r = true.
Proof.
  induction 1 as [|c r l Hsub IH|c r l Hsub IH]; cbn [tag_free]; intros H.
  - reflexivity.
  - apply andb_true_iff in H as [H1 H2]. rewrite (IH H2), andb_true_r.
    destruct (is_lt c); [|reflexivity]. cbn [andb negb] in *.
    apply negb_true_iff in H1. rewrite (existsb_sublist _ _ _ Hsub H1). reflexivity.
  - apply andb_true_iff in H as [_ H2]. exact (IH H2).
Qed.

Lemma strip_tags_tag_free s : tag_free (strip_tags s) = true /\ tag_free (in_tag s) = true.
Proof.
  induction s as [|c s [IH1 IH2]]; [split; reflexivity|].
  cbn [strip_tags in_tag]. split.
  - destruct (is_lt c && existsb is_gt s) eqn:E; [exact IH2|].
    cbn [tag_free]. rewrite IH1, andb_true_r.
    destruct (is_lt c); [|reflexivity]. cbn [andb negb] in *.
    rewrite (existsb_sublist _ _ _ (proj1 (strip_tags_sublist s)) E). reflexivity.
  - destruct (is_gt c); assumption.
Qed.

Lemma strip_tags_id s : tag_free s = true -> strip_tags s = s.
Proof.
  induction s as [|c s IH]; [reflexivity|]. cbn [tag_free strip_tags].
  intros H. apply andb_true_iff in H as [H1 H2].
  apply negb_true_iff in H1. rewrite H1, (IH H2). reflexivity.
Qed.

(** *** Trimming *)

Lemma trimStart_suffix s : exists k, s = (k ++ trimStart s)%list.
Proof.
  induction s as [|c s [k IH]]; [exists []; reflexivity|].
  cbn [trimStart]. destruct (is_space c).
  - exists (c :: k). cbn [app]. f_equal. exact IH.
  - exists []. reflexivity.
Qed.

Lemma trim_sublist s : sublist (trim s) s.
Proof.
  unfold trim, trimEnd.
  destruct (trimStart_suffix s) as [k Hk].
  destruct (trimStart_suffix (rev (trimStart s))) as [k' Hk'].
  apply (f_equal (@rev ascii)) in Hk'. rewrite rev_involutive, rev_app_distr in Hk'.
  rewrite Hk at 2. rewrite Hk' at 2.
  apply sublist_inserts_l, sublist_inserts_r. reflexivity.
Qed.

Lemma chars_append a b : chars (a ++ b) = (chars a ++ chars b)%list.
Proof.
  unfold chars. induction a as [|c a IH]; [reflexivity|].
  simpl. rewrite IH. reflexivity.
Qed.

Lemma length_chars s : length (chars s) = String.length s.
Proof.
  unfold chars. induction s as [|c s IH]; [reflexivity|].
  simpl. rewrite IH. reflexivity.
Qed.

Lemma tag_free_app s k :
  existsb is_gt k = false -> tag_free k = true ->
  tag_free s = true -> tag_free (s ++ k) = true.
Proof.
  intros Hgt Hk. induction s as [|c s IH]; [intros _; exact Hk|].
  cbn [app tag_free]. intros H. apply andb_true_iff in H as [H1 H2].
  rewrite (IH H2), andb_true_r, existsb_app, Hgt, orb_false_r. exact H1.
Qed.

(** X15.  The excerpt [generateExcerpt] makes has at most 153 characters
    and holds no complete tag; it is the visible text, trimmed, when that
    has at most 150 characters, and its first 150 characters followed by
    three dots otherwise. *)
Theorem generateExcerpt_spec (content : string) :
  let text := trim (strip_tags (chars content)) in
  (String.length (generateExcerpt content) <= 153)%nat /\
  tag_free (chars (generateExcerpt content)) = true /\
  generateExcerpt content
  = (if (length text <=? 150)%nat then str text
     else str (firstn 150 text) ++ "...").
Proof.
  intros text. unfold generateExcerpt. fold text.
  assert (Hfree : tag_free (firstn 150 text) = true).
  { apply (tag_free_sublist _ (strip_tags (chars content)));
      [|apply strip_tags_tag_free].
    etransitivity; [apply sublist_take|apply trim_sublist]. }
  rewrite length_take.
  destruct (Nat.leb_spec (length text) 150) as [Hle|Hgt].
  - replace (Nat.min 150 (length text) <? length text)%nat with false
      by (symmetry; apply Nat.ltb_ge; lia).
    rewrite firstn_all2 in * by exact Hle.
    rewrite chars_str, length_str.
    split; [lia|split; [exact Hfree|reflexivity]].
  - replace (Nat.min 150 (length text) <? length text)%nat with true
      by (symmetry; apply Nat.ltb_lt; lia).
    rewrite <- length_chars, chars_append, chars_str, length_app, length_take.
    change (length (chars "...")) with 3%nat.
    split; [lia|]. split; [|reflexivity].
    apply tag_free_app; [reflexivity|reflexivity|exact Hfree].
Qed.

(** *** Counting words *)

Lemma strip_tags_plain s :
  Forall (fun c => is_lt c = false) s -> strip_tags s = s.
Proof.
  induction 1 as [|c s Hc Hs IH]; [reflexivity|].
  cbn [strip_tags]. rewrite Hc, IH. reflexivity.
Qed.

Lemma split_runs_nonempty cls s :
  split_runs cls s <> [] /\ after_run cls s <> [].
Proof.
  induction s as [|c s [IH1 IH2]]; [split; discriminate|].
  cbn [split_runs after_run].
  destruct (cls c), (split_runs cls s); split; (discriminate || assumption || auto).
Qed.

Lemma split_runs_word w rest :
  Forall (fun c => is_space c = false) w ->
  split_runs is_space (w ++ rest)
  = match split_runs is_space rest with
    | p :: ps => (w ++ p)%list :: ps
    | [] => [w]
    end.
Proof.
  induction 1 as [|c w Hc Hw IH].
  - cbn [app]. destruct (split_runs is_space rest) eqn:E; [|reflexivity].
    destruct (proj1 (split_runs_nonempty is_space rest) E).
  - cbn [app split_runs]. rewrite Hc, IH.
    destruct (split_runs is_space rest); reflexivity.
Qed.

Lemma after_run_word c rest :
  is_space c = false ->
  after_run is_space (c :: rest) = split_runs is_space (c :: rest).
Proof. intros Hc. cbn [after_run split_runs]. rewrite Hc. reflexivity. Qed.

Lemma join_words_cons w w' ws :
  join_words (w :: w' :: ws) = (w ++ " "%char :: join_words (w' :: ws))%list.
Proof. reflexivity. Qed.

Lemma join_words_head ws :
  ws <> [] -> Forall is_plain_word ws ->
  exists c rest, join_words ws = c :: rest /\ is_space c = false.
Proof.
  intros Hne Hws. destruct Hws as [|w ws [Hw Hchars] Hws]; [contradiction|].
  destruct Hchars as [|c w [Hc _] Hcs]; [contradiction|].
  destruct ws; [exists c, w; auto|].
  rewrite join_words_cons. cbn [app]. eauto.
Qed.

Lemma join_words_last ws :
  ws <> [] -> Forall is_plain_word ws ->
  exists front c, join_words ws = (front ++ [c])%list /\ is_space c = false.
Proof.
  intros Hne Hws. induction Hws as [|w ws [Hw Hchars] Hws IH]; [contradiction|].
  destruct ws as [|w' ws].
  - cbn [join_words]. destruct (exists_last Hw) as (front & c & ->).
    apply Forall_app in Hchars as [_ Hc]. apply Forall_singleton in Hc as [Hc _].
    eauto.
  - destruct IH as (front & c & Hj & Hc); [discriminate|].
    rewrite join_words_cons, Hj.
    exists (w ++ " "%char :: front)%list, c. split; [|exact Hc].
    rewrite <- app_assoc. reflexivity.
Qed.

Lemma join_words_plain ws :
  Forall is_plain_word ws -> Forall (fun c => is_lt c = false) (join_words ws).
Proof.
  induction 1 as [|w ws [_ Hchars] Hws IH]; [constructor|].
  assert (Hw : Forall (fun c => is_lt c = false) w)
    by (eapply Forall_impl; [exact Hchars|]; intros c [_ H]; exact H).
  destruct ws; [exact Hw|].
  rewrite join_words_cons. apply Forall_app. split; [exact Hw|].
  constructor; [reflexivity|exact IH].
Qed.

Lemma trim_join_words ws :
  ws <> [] -> Forall is_plain_word ws -> trim (join_words ws) = join_words ws.
Proof.
  intros Hne Hws. unfold trim, trimEnd.
  destruct (join_words_head ws Hne Hws) as (c & rest & Hj & Hc).
  destruct (join_words_last ws Hne Hws) as (front & d & Hj' & Hd).
  assert (Hstart : trimStart (join_words ws) = join_words ws)
    by (rewrite Hj; cbn [trimStart]; rewrite Hc; reflexivity).
  rewrite Hstart, Hj', rev_app_distr. cbn [rev app trimStart].
  rewrite Hd. cbn [rev]. rewrite rev_involutive. reflexivity.
Qed.

Lemma split_join_words ws :
  ws <> [] -> Forall is_plain_word ws ->
  split_runs is_space (join_words ws) = ws.
Proof.
  intros Hne Hws. induction Hws as [|w ws [Hw Hchars] Hws IH]; [contradiction|].
  assert (Hns : Forall (fun c => is_space c = false) w)
    by (eapply Forall_impl; [exact Hchars|]; intros c [H _]; exact H).
  destruct ws as [|w' ws].
  - cbn [join_words]. rewrite <- (app_nil_r w) at 1.
    rewrite (split_runs_word w [] Hns). cbn [split_runs]. rewrite app_nil_r.
    reflexivity.
  - rewrite join_words_cons, (split_runs_word w _ Hns).
    destruct (join_words_head (w' :: ws)) as (c & rest & Hj & Hc);
      [discriminate|exact Hws|].
    cbn [split_runs]. change (is_space " "%char) with true. cbv iota.
    rewrite Hj, (after_run_word c rest Hc), <- Hj, IH by discriminate.
    rewrite app_nil_r. reflexivity.
Qed.

(** X16.  For a text of [n] words separated by single spaces (words
    without white space and without [<], [n] at least 1),
    [calculateReadTime] is [n / 200] rounded up. *)
Theorem calculateReadTime_words (ws : list (list ascii)) :
  ws <> [] ->
  Forall is_plain_word ws ->
  calculateReadTime (str (join_words ws)) = (Z.of_nat (length ws) + 199) / 200.
Proof.
  intros Hne Hws. unfold calculateReadTime.
  rewrite chars_str, (strip_tags_plain _ (join_words_plain ws Hws)).
  rewrite (trim_join_words ws Hne Hws), (split_join_words ws Hne Hws).
  apply Z.max_r. destruct ws; [contradiction|].
  apply (Z.div_le_lower_bound _ 200 1); cbn [length]; lia.
Qed.

Lemma calculateReadTime_words_witness :
  calculateReadTime (str (join_words (repeat (chars "word") 250)))
  = (Z.of_nat (length (repeat (chars "word") 250)) + 199) / 200.
Proof.
  apply (calculateReadTime_words (repeat (chars "word") 250)).
  - discriminate.
  - apply Forall_forall. intros w Hw.
    apply list_elem_of_In, repeat_spec in Hw as ->.
    split; [discriminate|repeat constructor].
Defined.

End TextProps.

(** * Further properties of the credential gate *)

Module AuthProps.
Import JS JSString BlogAuth Spec StringFacts AuthTheory.

(** *** The credential *)

Lemma hashPassword_not_empty pw : String.eqb (hashPassword pw) "" = false.
Proof. apply eqb_empty_false. rewrite hashPassword_length. lia. Qed.

Lemma verifyPassword_set pw h st :
  verifyPassword pw (set_local_password (Some (hashPassword h)) st)
  = String.eqb (hashPassword pw) (hashPassword h).
Proof.
  unfold verifyPassword. cbn [local_password set_local_password].
  rewrite hashPassword_not_empty. reflexivity.
Qed.

Lemma setPassword_long pw st :
  (6 <= String.length pw)%nat ->
  setPassword pw st = (set_local_password (Some (hashPassword pw)) st, true).
Proof.
  intros Hlen. unfold setPassword. rewrite eqb_empty_false by lia.
  replace (String.length pw <? 6)%nat with false
    by (symmetry; apply Nat.ltb_ge; exact Hlen).
  reflexivity.
Qed.

Lemma setPassword_short pw st :
  (String.length pw < 6)%nat -> setPassword pw st = (st, false).
Proof.
  intros Hlen. unfold setPassword.
  replace (String.length pw <? 6)%nat with true
    by (symmetry; apply Nat.ltb_lt; exact Hlen).
  rewrite orb_true_r. reflexivity.
Qed.

(** X17.  [changePassword] fails closed.  When the current password
    verifies and the new one has at least six characters, the digest of the
    new password replaces the stored one, the new password verifies and the
    sessions are untouched; in every other case the call returns false and
    the store is unchanged, so the old password stays valid. *)
Theorem changePassword_spec currentPassword newPassword st :
  if verifyPassword currentPassword st && (6 <=? String.length newPassword)%nat
  then
    changePassword currentPassword newPassword st
    = (set_local_password (Some (hashPassword newPassword)) st, true) /\
    verifyPassword newPassword (fst (changePassword currentPassword newPassword st))
    = true /\
    getSession (fst (changePassword currentPassword newPassword st)) = getSession st
  else changePassword currentPassword newPassword st = (st, false).
Proof.
  unfold changePassword.
  destruct (verifyPassword currentPassword st); [|reflexivity].
  cbn [andb]. destruct (Nat.leb_spec 6 (String.length newPassword)) as [Hlen|Hlen].
  - rewrite (setPassword_long _ _ Hlen). cbn [fst].
    rewrite verifyPassword_set, String.eqb_refl. auto.
  - apply setPassword_short, Hlen.
Qed.

(** X18.  A wrong password is refused and changes nothing: when a
    credential is stored and the digest of the password differs from it,
    [login] returns [success: false] and leaves the store, sessions
    included, as it was. *)
Theorem login_wrong_password pw rememberMe t1 t2 st stored :
  local_password st = Some stored ->
  hashPassword pw <> stored ->
  login pw rememberMe t1 t2 st
  = (st, {| success := false;
            message := "Incorrect password. Please try again.";
            firstTime := None |}).
Proof.
  intros Hstored Hne. unfold login, isPasswordSet, verifyPassword.
  rewrite Hstored. cbn [negb].
  destruct (String.eqb stored ""); [reflexivity|].
  replace (String.eqb (hashPassword pw) stored) with false; [reflexivity|].
  symmetry. apply String.eqb_neq, Hne.
Qed.

Lemma login_wrong_password_witness :
  let st := set_local_password (Some (hashPassword "secret1"))
              (mkStorage None None None) in
  login "secret2" false 1704067200000 1704067200000 st
  = (st, {| success := false;
            message := "Incorrect password. Please try again.";
            firstTime := None |}).
Proof.
  cbv zeta.
  apply (login_wrong_password "secret2" false _ _ _ (hashPassword "secret1")).
  - reflexivity.
  - vm_compute. discriminate.
Defined.

(** *** Sessions *)

(** X19.  A session just created is honoured until it expires: for 24
    hours after [createSession(false)], and for 30 days after
    [createSession(true)] when the tab scope holds no session text,
    [isAuthenticated] returns true and changes nothing. *)
Theorem createSession_authenticated rememberMe t1 t2 now st :
  (rememberMe = true -> text_truthy (tab_session st) = false) ->
  now <= t2 + (if rememberMe then 30 * 24 * 60 * 60 * 1000 else SESSION_DURATION) ->
  isAuthenticated now (createSession rememberMe t1 t2 st)
  = (createSession rememberMe t1 t2 st, true).
Proof.
  intros Htab Hnow. unfold isAuthenticated, sessionData, createSession.
  destruct rememberMe.
  - cbn [tab_session set_local_session local_session].
    rewrite (Htab eq_refl).
    cbn [text_truthy negb JSON_stringify JSON_parse expiresAt authenticated].
    replace (now >? _) with false; [reflexivity|].
    symmetry. rewrite Z.gtb_ltb. apply Z.ltb_ge. exact Hnow.
  - cbn [tab_session set_tab_session text_truthy negb JSON_stringify JSON_parse
           expiresAt authenticated].
    replace (now >? _) with false; [reflexivity|].
    symmetry. rewrite Z.gtb_ltb. apply Z.ltb_ge. exact Hnow.
Qed.

Lemma createSession_authenticated_witness :
  let st := mkStorage None None None in
  isAuthenticated (1704067200000 + 30 * 24 * 60 * 60 * 1000)
    (createSession true 1704067200000 1704067200000 st)
  = (createSession true 1704067200000 1704067200000 st, true).
Proof.
  cbv zeta.
  apply (createSession_authenticated true).
  - reflexivity.
  - vm_compute. discriminate.
Defined.

(** X20.  A "remember me" login is lost when the tab scope still holds an
    expired session: [isAuthenticated] looks at the tab scope first, finds
    the expired record, and clears both scopes, the durable session just
    created included. *)
Theorem createSession_shadowed stale t1 t2 now st :
  tab_session st = Some (TextOf stale) ->
  expiresAt stale < now ->
  isAuthenticated now (createSession true t1 t2 st)
  = (logout (createSession true t1 t2 st), false) /\
  local_session (fst (isAuthenticated now (createSession true t1 t2 st))) = None.
Proof.
  intros Htab Hexp.
  assert (H : isAuthenticated now (createSession true t1 t2 st)
              = (logout (createSession true t1 t2 st), false)).
  { unfold isAuthenticated, sessionData, createSession.
    cbn [tab_session set_local_session]. rewrite Htab.
    cbn [text_truthy negb JSON_parse].
    replace (now >? expiresAt stale) with true; [reflexivity|].
    symmetry. apply Z.gtb_lt. exact Hexp. }
  rewrite H. split; reflexivity.
Qed.

Lemma createSession_shadowed_witness :
  let st := createSession false 1704067200000 1704067200000
              (mkStorage None None None) in
  let now := 1704067200000 + SESSION_DURATION + 1000 in
  isAuthenticated now (createSession true now now st)
  = (logout (createSession true now now st), false) /\
  local_session (fst (isAuthenticated now (createSession true now now st))) = None.
Proof.
  cbv zeta.
  apply (createSession_shadowed
           {| authenticated := true; timestamp := 1704067200000;
              expiresAt := 1704067200000 + SESSION_DURATION |}).
  - reflexivity.
  - vm_compute. reflexivity.
Defined.

Lemma at_most_five_minutes remaining :
  (Z.max 0 (remaining / (60 * 1000)) <=? 5) = (remaining <? 360000).
Proof.
  change (60 * 1000) with 60000.
  destruct (Z.ltb_spec remaining 360000) as [H|H].
  - apply Z.leb_le, Z.max_lub; [lia|].
    apply Z.lt_succ_r, Z.div_lt_upper_bound; lia.
  - apply Z.leb_gt.
    assert (6 <= remaining / 60000) by (apply Z.div_le_lower_bound; lia).
    lia.
Qed.

(** X21.  "Expiring soon" means less than six minutes: with a session,
    [isSessionExpiringSoon] is true exactly when fewer than 360000 ms
    remain until [expiresAt] (an expired session included); without a
    session it is true. *)
Theorem isSessionExpiringSoon_spec now st :
  isSessionExpiringSoon now st
  = match getSession st with
    | Some session => expiresAt session - now <? 360000
    | None => true
    end.
Proof.
  unfold isSessionExpiringSoon, getSessionTimeRemaining.
  destruct (getSession st) as [s|]; [|reflexivity].
  apply at_most_five_minutes.
Qed.

Lemma extendSession_found st s now :
  getSession st = Some s ->
  getSession (extendSession now st)
  = Some {| authenticated := authenticated s; timestamp := timestamp s;
            expiresAt := now + SESSION_DURATION |}.
Proof.
  intros Hs. unfold extendSession. rewrite Hs.
  apply getSession_Some in Hs. apply getSession_Some.
  unfold sessionData in *.
  destruct (text_truthy (tab_session st)) eqn:Htab; [reflexivity|].
  cbn [tab_session set_local_session local_session]. rewrite Htab. reflexivity.
Qed.

(** X22.  The activity listener revives a session that has run out: when
    the lookup finds an authenticated record with fewer than six minutes
    left, or already expired, [extendOnActivity] gives it 24 hours from the
    time of the activity, and [isAuthenticated] returns true during those
    24 hours. *)
Theorem extendOnActivity_revives st s t1 t2 now :
  getSession st = Some s ->
  authenticated s = true ->
  expiresAt s - t1 < 360000 ->
  now <= t2 + SESSION_DURATION ->
  getSession (extendOnActivity t1 t2 st)
  = Some {| authenticated := true; timestamp := timestamp s;
            expiresAt := t2 + SESSION_DURATION |} /\
  isAuthenticated now (extendOnActivity t1 t2 st)
  = (extendOnActivity t1 t2 st, true).
Proof.
  intros Hs Hauth Hsoon Hnow.
  unfold extendOnActivity, isSessionExpiringSoon, getSessionTimeRemaining.
  rewrite Hs, at_most_five_minutes.
  replace (expiresAt s - t1 <? 360000) with true
    by (symmetry; apply Z.ltb_lt; exact Hsoon).
  pose proof (extendSession_found st s t2 Hs) as Hget.
  rewrite Hauth in Hget. split; [exact Hget|].
  apply getSession_Some in Hget.
  unfold isAuthenticated. rewrite Hget.
  cbn [text_truthy negb JSON_parse expiresAt authenticated].
  replace (now >? t2 + SESSION_DURATION) with false; [reflexivity|].
  symmetry. rewrite Z.gtb_ltb. apply Z.ltb_ge. exact Hnow.
Qed.

Lemma extendOnActivity_revives_witness :
  let st := createSession false 1704067200000 1704067200000
              (mkStorage None None None) in
  let now := 1704067200000 + SESSION_DURATION + 1000 in
  getSession (extendOnActivity now now st)
  = Some {| authenticated := true; timestamp := 1704067200000;
            expiresAt := now + SESSION_DURATION |} /\
  isAuthenticated now (extendOnActivity now now st)
  = (extendOnActivity now now st, true).
Proof.
  cbv zeta.
  apply (extendOnActivity_revives _
           {| authenticated := true; timestamp := 1704067200000;
              expiresAt := 1704067200000 + SESSION_DURATION |}).
  - reflexivity.
  - reflexivity.
  - vm_compute. reflexivity.
  - vm_compute. discriminate.
Defined.

(** X23.  The activity listener leaves a session alone while six minutes
    or more remain: a "remember me" session keeps its 30 days until its
    last six minutes. *)
Theorem extendOnActivity_idle st s t1 t2 :
  getSession st = Some s ->
  360000 <= expiresAt s - t1 ->
  extendOnActivity t1 t2 st = st.
Proof.
  intros Hs Hleft.
  unfold extendOnActivity, isSessionExpiringSoon, getSessionTimeRemaining.
  rewrite Hs, at_most_five_minutes.
  replace (expiresAt s - t1 <? 360000) with false; [reflexivity|].
  symmetry. apply Z.ltb_ge. exact Hleft.
Qed.

Lemma extendOnActivity_idle_witness :
  let st := createSession true 1704067200000 1704067200000
              (mkStorage None None None) in
  extendOnActivity 1704067260000 1704067260000 st = st.
Proof.
  cbv zeta.
  apply (extendOnActivity_idle _
           {| authenticated := true; timestamp := 1704067200000;
              expiresAt := 1704067200000 + 30 * 24 * 60 * 60 * 1000 |}).
  - reflexivity.
  - vm_compute. discriminate.
Defined.

(** *** Redirection and reset *)

(** X24.  The address of a refused page is kept for one use: when
    [requireAuth] finds no valid session it returns false, sends the
    browser to the login page and stores the address it came from; the next
    [getRedirectUrl] returns that address and the one after it [null]. *)
Theorem requireAuth_redirect loginUrl now b :
  snd (isAuthenticated now (store b)) = false ->
  let b1 := fst (requireAuth loginUrl now b) in
  let b2 := fst (getRedirectUrl b1) in
  snd (requireAuth loginUrl now b) = false /\
  location b1 = loginUrl /\
  snd (getRedirectUrl b1) = Some (location b) /\
  snd (getRedirectUrl b2) = None.
Proof.
  intros Hno. unfold requireAuth.
  destruct (isAuthenticated now (store b)) as [st ok]. cbn [snd] in Hno.
  subst ok. repeat split.
Qed.

Lemma requireAuth_redirect_witness :
  let b := mkBrowser (mkStorage None None None) None "editor.html?id=hello" in
  let b1 := fst (requireAuth "../admin/index.html" 1704067200000 b) in
  let b2 := fst (getRedirectUrl b1) in
  snd (requireAuth "../admin/index.html" 1704067200000 b) = false /\
  location b1 = "../admin/index.html" /\
  snd (getRedirectUrl b1) = Some (location b) /\
  snd (getRedirectUrl b2) = None.
Proof.
  cbv zeta.
  apply (requireAuth_redirect "../admin/index.html" 1704067200000
           (mkBrowser (mkStorage None None None) None "editor.html?id=hello")).
  reflexivity.
Defined.

(** X25.  A confirmed [resetPassword] removes the credential and every
    session, and the next [login] with any password of at least six
    characters is a first-time setup that installs that password. *)
Theorem resetPassword_then_login pw rememberMe t1 t2 st :
  (6 <= String.length pw)%nat ->
  let st0 := fst (resetPassword true st) in
  isPasswordSet st0 = false /\
  getSession st0 = None /\
  firstTime (snd (login pw rememberMe t1 t2 st0)) = Some true /\
  success (snd (login pw rememberMe t1 t2 st0)) = true /\
  verifyPassword pw (fst (login pw rememberMe t1 t2 st0)) = true.
Proof.
  intros Hlen st0.
  assert (Hlogin : login pw rememberMe t1 t2 st0
                   = (createSession rememberMe t1 t2
                        (set_local_password (Some (hashPassword pw)) st0),
                      {| success := true;
                         message := "Password set successfully! Welcome to your blog admin.";
                         firstTime := Some true |})).
  { unfold login, isPasswordSet. cbn [st0 resetPassword fst logout local_password
      set_local_session set_tab_session set_local_password negb].
    rewrite (setPassword_long pw _ Hlen). reflexivity. }
  rewrite Hlogin. cbn [fst snd success firstTime].
  repeat split. unfold verifyPassword.
  replace (local_password _) with (Some (hashPassword pw))
    by (unfold createSession; destruct rememberMe; reflexivity).
  rewrite hashPassword_not_empty, String.eqb_refl. reflexivity.
Qed.

Lemma resetPassword_then_login_witness :
  let st := fst (login "secret1" true 1704067200000 1704067200000
                   (mkStorage None None None)) in
  let st0 := fst (resetPassword true st) in
  isPasswordSet st0 = false /\
  getSession st0 = None /\
  firstTime (snd (login "another" false 1704067260000 1704067260000 st0)) = Some true /\
  success (snd (login "another" false 1704067260000 1704067260000 st0)) = true /\
  verifyPassword "another" (fst (login "another" false 1704067260000 1704067260000 st0))
  = true.
Proof.
  cbv zeta.
  apply (resetPassword_then_login "another" false).
  simpl. lia.
Defined.

(** *** The digest as text *)

Lemma be_bytes_bound n x : Forall (fun b => (b < 256)%N) (SHA256.be_bytes n x).
Proof.
  induction n as [|n IH]; [constructor|]. cbn [SHA256.be_bytes].
  constructor; [apply N.mod_lt; discriminate|exact IH].
Qed.

Lemma digest_bound msg : Forall (fun b => (b < 256)%N) (SHA256.digest msg).
Proof.
  unfold SHA256.digest. generalize (fold_left SHA256.compress
    (SHA256.chunks (length (SHA256.pad msg)) 64 (SHA256.pad msg)) SHA256.H0).
  intros h. induction h as [|x h IH]; [constructor|].
  cbn [flat_map]. apply Forall_app. split; [apply be_bytes_bound|exact IH].
Qed.

Lemma hex_digit_ok n : (n < 16)%N -> is_hex (hex_digit n) = true.
Proof.
  intros H.
  assert (Hall : forallb (fun k => is_hex (hex_digit (N.of_nat k))) (seq 0 16) = true)
    by reflexivity.
  rewrite forallb_forall in Hall.
  rewrite <- (N2Nat.id n). apply Hall, in_seq. lia.
Qed.

(** X26.  The stored credential is text of a fixed shape: [hashPassword]
    returns 64 characters, each a hexadecimal digit in lower case, for
    every password. *)
Theorem hashPassword_hex (password : string) :
  String.length (hashPassword password) = 64%nat /\
  Forall (fun c => is_hex c = true) (chars (hashPassword password)).
Proof.
  split; [apply hashPassword_length|].
  unfold hashPassword. rewrite chars_str.
  generalize (digest_bound (flat_map utf8 (chars password))).
  generalize (SHA256.digest (flat_map utf8 (chars password))).
  intros l. induction 1 as [|b l Hb Hl IH]; [constructor|].
  cbn [flat_map hex_byte app].
  constructor; [apply hex_digit_ok, N.Div0.div_lt_upper_bound; exact Hb|].
  constructor; [apply hex_digit_ok, N.mod_lt; discriminate|exact IH].
Qed.

End AuthProps.

(** * The editor *)

Module EditorProps.
Import JS JSString BlogStorage BlogEditor Spec StringFacts StorageTheory
  StorageExtra StorageProps.

Lemma author_of settings :
  getSettings settings <> JNull ->
  exists author, get_prop (Some (getSettings settings)) "author" = Ok author.
Proof.
  destruct (getSettings settings); intros H; try (eexists; reflexivity).
  contradiction.
Qed.

(** The record [getPostData] builds. *)
Lemma getPostData_fields form settings ed id author :
  (if truthy (Some (currentPost ed))
   then get_prop (Some (currentPost ed)) "id" else Ok None) = Ok id ->
  get_prop (Some (getSettings settings)) "author" = Ok author ->
  exists postData,
    getPostData form settings ed = Ok postData /\
    postData !! "id" = Some id /\
    postData !! "title" = Some (Some (JStr (trimmed (titleInput form)))) /\
    postData !! "slug"
    = Some (Some (JStr (generateSlug (trimmed (titleInput form))))) /\
    postData !! "content" = Some (Some (JStr (editorContent form))) /\
    postData !! "createdAt" = None /\
    postData !! "excerpt" <> None /\ postData !! "excerpt" <> Some None.
Proof.
  intros Hid Hauthor. unfold getPostData. rewrite Hid, Hauthor. cbn [bind].
  eexists. split; [reflexivity|].
  repeat split; try (by simplify_map_eq).
Qed.


(** Saving from the editor when the post being edited is stored. *)
Lemma save_as_update flag (ps : list (gmap string json)) i P pid cp
    form settings now ed st :
  getAllPosts st = Ok (JArr (JObj <$> ps)) ->
  first_with_id ps i P pid ->
  currentPost ed = JObj cp ->
  cp !! "id" = Some (JStr pid) ->
  getSettings settings <> JNull ->
  exists Q,
    save_as flag form settings now ed st
    = (mkEditor (JObj Q) false, savePosts (JArr (JObj <$> <[i := Q]> ps)) st) /\
    Q !! "id" = Some (JStr pid) /\
    Q !! "title" = Some (JStr (trimmed (titleInput form))) /\
    Q !! "slug" = Some (JStr (generateSlug (trimmed (titleInput form)))) /\
    Q !! "published" = Some (JBool flag) /\
    Q !! "createdAt" = P !! "createdAt" /\
    Q !! "updatedAt" = Some (JNum now).
Proof.
  intros Hget Hfirst Hcur Hcp Hsettings.
  destruct (author_of settings Hsettings) as [author Hauthor].
  destruct (getPostData_fields form settings ed (Some (JStr pid)) author)
    as (postData & Hpd & Hid & Htitle & Hslug & _ & Hcreated & _);
    [rewrite Hcur; cbn [truthy get_prop]; rewrite Hcp; reflexivity|exact Hauthor|].
  set (pd := <["published" := Some (JBool flag)]> postData).
  exists (serializable (merged P pd now)).
  split.
  - unfold save_as. rewrite Hpd. cbn [bind]. fold pd.
    rewrite (savePost_update ps i P pid pd now st Hget Hfirst);
      [reflexivity|].
    unfold get_field, pd. rewrite lookup_insert_ne by discriminate.
    rewrite Hid. reflexivity.
  - rewrite serializable_merged_updatedAt.
    rewrite !serializable_merged by discriminate. unfold pd.
    rewrite lookup_insert_eq, !lookup_insert_ne by discriminate.
    rewrite Hid, Htitle, Hslug, Hcreated. repeat split.
Qed.

Lemma validate_title form :
  trimmed (titleInput form) <> "" -> validateForm false form = true.
Proof.
  intros H. unfold validateForm.
  apply String.eqb_neq in H. rewrite H. reflexivity.
Qed.

(** X27.  Saving a stored post from the editor recomputes its slug and
    makes it a draft: [saveDraft] (and [autoSave], which does the same)
    stores the trimmed title and the slug of that title, keeps the id and
    [createdAt], sets [updatedAt] to the time of the save, and sets
    [published] to false whatever the checkbox and the stored value were;
    the editor then holds the stored post and no unsaved change. *)
Theorem saveDraft_updates (ps : list (gmap string json)) i P pid cp
    form settings now ed st :
  getAllPosts st = Ok (JArr (JObj <$> ps)) ->
  first_with_id ps i P pid ->
  currentPost ed = JObj cp ->
  cp !! "id" = Some (JStr pid) ->
  getSettings settings <> JNull ->
  trimmed (titleInput form) <> "" ->
  exists ed' st',
    saveDraft form settings now ed st = (ed', st') /\
    autoSave form settings now ed st = (ed', st') /\
    length (collection st') = length ps /\
    collection st' !! i = Some (currentPost ed') /\
    hasUnsavedChanges ed' = false /\
    field_at st' i "id" = Some (JStr pid) /\
    field_at st' i "title" = Some (JStr (trimmed (titleInput form))) /\
    field_at st' i "slug" = Some (JStr (generateSlug (trimmed (titleInput form)))) /\
    field_at st' i "published" = Some (JBool false) /\
    field_at st' i "createdAt" = P !! "createdAt" /\
    field_at st' i "updatedAt" = Some (JNum now).
Proof.
  intros Hget Hfirst Hcur Hcp Hsettings Htitle.
  destruct (save_as_update false ps i P pid cp form settings now ed st)
    as (Q & Hsave & HQ); try assumption.
  pose proof (lookup_lt_Some _ _ _ (proj1 Hfirst)) as Hlt.
  assert (Hi : <[i := Q]> ps !! i = Some Q) by (apply list_lookup_insert_eq, Hlt).
  exists (mkEditor (JObj Q) false), (savePosts (JArr (JObj <$> <[i := Q]> ps)) st).
  unfold saveDraft, autoSave. rewrite (validate_title form Htitle). cbn [negb].
  rewrite Hsave, collection_saved, !(field_at_saved _ i Q) by exact Hi.
  rewrite length_fmap, length_insert, list_lookup_fmap, Hi.
  repeat split; apply HQ.
Qed.

Lemma saveDraft_updates_witness :
  let form := mkForm "  Hello again " "<p>text</p>" "Technology" "" "" true in
  let ed := mkEditor (JObj hello_post) true in
  let now := 1704067260000 in
  exists ed' st',
    saveDraft form None now ed hello_store = (ed', st') /\
    autoSave form None now ed hello_store = (ed', st') /\
    length (collection st') = length [hello_post] /\
    collection st' !! 0%nat = Some (currentPost ed') /\
    hasUnsavedChanges ed' = false /\
    field_at st' 0 "id" = Some (JStr "hello-2024-01-01") /\
    field_at st' 0 "title" = Some (JStr (trimmed (titleInput form))) /\
    field_at st' 0 "slug" = Some (JStr (generateSlug (trimmed (titleInput form)))) /\
    field_at st' 0 "published" = Some (JBool false) /\
    field_at st' 0 "createdAt" = hello_post !! "createdAt" /\
    field_at st' 0 "updatedAt" = Some (JNum now).
Proof.
  cbv zeta.
  apply (saveDraft_updates [hello_post] 0 hello_post "hello-2024-01-01" hello_post).
  - reflexivity.
  - split; [reflexivity|split; [reflexivity|intros j Q Hj; lia]].
  - reflexivity.
  - reflexivity.
  - vm_compute. discriminate.
  - vm_compute. discriminate.
Defined.

(** X28.  [publish] stores nothing unless the form has a title and a
    content other than the empty one and [<br>] and the dialog is
    confirmed; when it saves a stored post, the post becomes published and
    gets the slug of the trimmed title. *)
Theorem publish_spec (ps : list (gmap string json)) i P pid cp
    confirmed form settings now ed st :
  getAllPosts st = Ok (JArr (JObj <$> ps)) ->
  first_with_id ps i P pid ->
  currentPost ed = JObj cp ->
  cp !! "id" = Some (JStr pid) ->
  getSettings settings <> JNull ->
  if validateForm true form && confirmed
  then
    exists ed' st',
      publish confirmed form settings now ed st = (ed', st') /\
      field_at st' i "id" = Some (JStr pid) /\
      field_at st' i "published" = Some (JBool true) /\
      field_at st' i "slug" = Some (JStr (generateSlug (trimmed (titleInput form))))
  else publish confirmed form settings now ed st = (ed, st).
Proof.
  intros Hget Hfirst Hcur Hcp Hsettings. unfold publish.
  destruct (validateForm true form); [|reflexivity].
  destruct confirmed; [|reflexivity]. cbn [andb negb].
  destruct (save_as_update true ps i P pid cp form settings now ed st)
    as (Q & Hsave & HQ); try assumption.
  pose proof (lookup_lt_Some _ _ _ (proj1 Hfirst)) as Hlt.
  assert (Hi : <[i := Q]> ps !! i = Some Q) by (apply list_lookup_insert_eq, Hlt).
  eexists _, _. split; [exact Hsave|].
  rewrite !(field_at_saved _ i Q) by exact Hi.
  repeat split; apply HQ.
Qed.

(** A stored post published from a valid form, and the same editor with a
    form whose content is the empty [<br>]: nothing is stored. *)
Lemma publish_spec_witness :
  let ed := mkEditor (JObj hello_post) true in
  let form := mkForm "  Hello again " "<p>text</p>" "Technology" "" "" false in
  let blank := mkForm "Hello" "<br>" "Technology" "" "" true in
  (exists ed' st',
     publish true form None 1704067260000 ed hello_store = (ed', st') /\
     field_at st' 0 "id" = Some (JStr "hello-2024-01-01") /\
     field_at st' 0 "published" = Some (JBool true) /\
     field_at st' 0 "slug" = Some (JStr "hello-again")) /\
  publish true blank None 1704067260000 ed hello_store = (ed, hello_store).
Proof.
  cbv zeta.
  assert (Hfirst : first_with_id [hello_post] 0 hello_post "hello-2024-01-01")
    by (split; [reflexivity|split; [reflexivity|intros j Q Hj; lia]]).
  assert (Hsettings : getSettings None <> JNull) by (vm_compute; discriminate).
  split.
  - pose proof (publish_spec [hello_post] 0 hello_post "hello-2024-01-01" hello_post
                  true (mkForm "  Hello again " "<p>text</p>" "Technology" "" "" false)
                  None 1704067260000 (mkEditor (JObj hello_post) true) hello_store
                  eq_refl Hfirst eq_refl eq_refl Hsettings) as H.
    exact H.
  - exact (publish_spec [hello_post] 0 hello_post "hello-2024-01-01" hello_post
             true (mkForm "Hello" "<br>" "Technology" "" "" true)
             None 1704067260000 (mkEditor (JObj hello_post) true) hello_store
             eq_refl Hfirst eq_refl eq_refl Hsettings).
Defined.



End EditorProps.
